(** * app-skeleton: OIDC multi-provider flow, auth store and role masks

    A shallow embedding of the code patterns of
    [doc/oidc/OIDC_IMPLEMENTATION_GUIDE.md] (Python backend, TypeScript
    frontend), of [frontend/src/lib/auth-store.ts] and of the permission
    constants of
    [frontend/src/components/settings/permissions-management.tsx],
    followed by the properties established about them.

    Python dictionaries and the js-cookie jar are finite maps ([gmap]);
    exceptions are the left summand of a sum type; mutable objects
    ([self._ssl_contexts], the cookie jar, the zustand store) are threaded
    explicitly. *)

From Stdlib Require Import ZArith String Ascii List Bool Lia.
From stdpp Require Import base option gmap strings list sorting fin_maps pretty.

Set Warnings "-register-all".
Local Open Scope string_scope.

(** ** Exceptions and the error monad *)

(** What a Python handler can raise in the modelled fragments. *)
Inductive exn : Type :=
| HTTPException (status_code : Z) (detail : string)
| ValueError (msg : string)
| AttributeError (msg : string)
| SSLError (msg : string).

Definition result (A : Type) : Type := (exn + A)%type.

Definition ret {A} (a : A) : result A := inr a.
Definition raise {A} (e : exn) : result A := inl e.
Definition bind {A B} (m : result A) (k : A -> result B) : result B :=
  match m with
  | inl e => inl e
  | inr a => k a
  end.

Notation "'do!' x <- m ; k" := (bind m (fun x => k))
  (at level 10, x name, m at level 100, k at level 200,
   format "'do!'  x  <-  m ;  '/' k").

Definition raises {A} (m : result A) : Prop :=
  match m with inl _ => True | inr _ => False end.

(** The names the specification gives to the two failures of the state
    check: the [HTTPException(status_code=400, detail="Provider mismatch")]
    of the callback, and the [ValueError] Python raises when the list
    produced by [split] cannot be unpacked into two names. *)
Definition ProviderMismatch : exn := HTTPException 400 "Provider mismatch".
Definition MalformedState : exn :=
  ValueError "not enough values to unpack (expected 2, got 1)".

(** Python truthiness of a [str], and of an optional value. *)
Definition truthy (s : string) : bool := negb (String.eqb s "").

Definition truthy_opt (o : option string) : bool :=
  match o with
  | Some s => truthy s
  | None => false
  end.

(** ** State token codec *)

Module StateCodec.

(** The separator of [f"{provider_id}:{state}"]. *)
Definition SEP : ascii := ":"%char.

(** [has_sep s]: the separator occurs in [s]. *)
Fixpoint has_sep (s : string) : bool :=
  match s with
  | EmptyString => false
  | String c s' => if Ascii.eqb c SEP then true else has_sep s'
  end.

(** [cut sep s] looks for the first [sep]: the text before it and, when
    there is one, the text after it. *)
Fixpoint cut (sep : ascii) (s : string) : string * option string :=
  match s with
  | EmptyString => (EmptyString, None)
  | String c s' =>
      if Ascii.eqb c sep then (EmptyString, Some s')
      else let '(p, r) := cut sep s' in (String c p, r)
  end.

(** Python's [str.split(sep, maxsplit)] for a one-character [sep]: at most
    [maxsplit] cuts, left to right; the last element keeps the rest. *)
Fixpoint py_split (sep : ascii) (maxsplit : nat) (s : string) : list string :=
  match maxsplit with
  | O => [s]
  | S n =>
      match cut sep s with
      | (p, None) => [p]
      | (p, Some r) => p :: py_split sep n r
      end
  end.

(** JavaScript's [String.prototype.split(sep)] without a limit. *)
Fixpoint js_split_all (sep : ascii) (s : string) : list string :=
  match s with
  | EmptyString => [EmptyString]
  | String c s' =>
      if Ascii.eqb c sep then EmptyString :: js_split_all sep s'
      else match js_split_all sep s' with
           | [] => [String c EmptyString]
           | h :: t => String c h :: t
           end
  end.

(** [split(sep, limit)]: the full split, truncated to [limit] pieces. *)
Definition js_split (sep : ascii) (limit : nat) (s : string) : list string :=
  take limit (js_split_all sep s).

(** [a, b = xs]: tuple unpacking into exactly two names. *)
Definition unpack2 (xs : list string) : result (string * string) :=
  match xs with
  | [a; b] => ret (a, b)
  | [_] => raise MalformedState
  | [] => raise (ValueError "not enough values to unpack (expected 2, got 0)")
  | _ => raise (ValueError "too many values to unpack (expected 2)")
  end.

(** Backend, generation:
    [state = secrets.token_urlsafe(32)]
    [state_with_provider = f"{provider_id}:{state}"].
    The random draw is the explicit argument [token]. *)
Definition issue (provider_id token : string) : string :=
  provider_id ++ String SEP token.

(** Backend, callback: [state_provider, _ = callback_data.state.split(":", 1)]. *)
Definition parse (state : string) : result (string * string) :=
  unpack2 (py_split SEP 1 state).

(** Frontend: [const [providerId] = state.split(":", 2)]; [None] is
    [undefined]. *)
Definition extractProviderId (state : string) : option string :=
  head (js_split SEP 2 state).

End StateCodec.

(** ** Callback: state validation in front of the rest of the flow *)

Module Callback.
Section Flow.

(** The credential handed back on success, and the steps that follow the
    state check (token exchange, identity-token verification, claim mapping,
    provisioning), which take the route's provider and the code. *)
Variable Credential : Type.
Variable exchange_and_login : string -> string -> result Credential.

(** [if callback_data.state:] ... [raise HTTPException(400, "Provider mismatch")]. *)
Definition validate_state (provider_id : string) (state : option string)
  : result unit :=
  match state with
  | Some s =>
      if truthy s then
        do! pieces <- StateCodec.parse s;
        let '(state_provider, _) := pieces in
        if String.eqb state_provider provider_id then ret tt
        else raise ProviderMismatch
      else ret tt
  | None => ret tt
  end.

Definition handleCallback (provider_id code : string) (state : option string)
  : result Credential :=
  do! _ <- validate_state provider_id state;
  exchange_and_login provider_id code.

End Flow.
End Callback.

(** ** Provider entries of [oidc_providers.yaml] *)

Module Settings.

(** One provider entry as the YAML loader hands it over: a dictionary read
    with [.get], so every key may be absent ([None]). *)
Record provider : Type := {
  enabled : option bool;
  discovery_url : option string;
  client_id : option string;
  client_secret : option string;
  redirect_uri : option string;
  name : option string;
  description : option string;
  icon : option string;
  display_order : option Z;
  ca_cert_path : option string;
  scopes : option (list string);
  claim_mappings : option (gmap string string);
  auto_provision : option bool;
  default_role : option string;
  username_prefix : option string
}.

(** An entry with no key at all. *)
Definition blank : provider :=
  {| enabled := None; discovery_url := None; client_id := None;
     client_secret := None; redirect_uri := None; name := None;
     description := None; icon := None; display_order := None;
     ca_cert_path := None; scopes := None; claim_mappings := None;
     auto_provision := None; default_role := None; username_prefix := None |}.

End Settings.

(** ** Pattern 4: provider-specific claim mapping *)

Module ClaimMapping.

Record user_data : Type := {
  username : string;
  email : option string;
  realname : string;
  provider_id : string
}.

Section Extract.

(** [settings_manager.get_oidc_provider]; an unknown identifier gives
    [None], on which [provider.get] raises. *)
Variable get_oidc_provider : string -> option Settings.provider.

Definition username_claim_of (mappings : gmap string string) : string :=
  default "preferred_username" (mappings !! "username").
Definition email_claim_of (mappings : gmap string string) : string :=
  default "email" (mappings !! "email").
Definition name_claim_of (mappings : gmap string string) : string :=
  default "name" (mappings !! "name").

Definition extract_user_data (provider_id : string)
    (claims : gmap string string) : result user_data :=
  match get_oidc_provider provider_id with
  | None => raise (AttributeError "'NoneType' object has no attribute 'get'")
  | Some provider =>
      let mappings := default ∅ (Settings.claim_mappings provider) in
      let username_claim := username_claim_of mappings in
      let email_claim := email_claim_of mappings in
      let name_claim := name_claim_of mappings in
      let username := claims !! username_claim in
      if negb (truthy_opt username) then
        raise (HTTPException 401
                 ("Username claim '" ++ username_claim
                    ++ "' not found in token"))
      else
        ret {| username := default "" username;
               email := claims !! email_claim;
               realname := default (default "" username) (claims !! name_claim);
               provider_id := provider_id |}
  end.

End Extract.
End ClaimMapping.

(** ** Pattern 2: per-provider SSL context *)

Module Trust.

(** An [ssl.SSLContext] after [load_verify_locations(cafile=...)]. *)
Record SSLContext : Type := { cafile : string }.

(** The service object: the [_ssl_contexts] cache, and what went to
    [logger.warning]. *)
Record service : Type := {
  _ssl_contexts : gmap string SSLContext;
  warnings : list string
}.

Definition is_absolute (path : string) : bool :=
  match path with
  | String "/"%char _ => true
  | _ => false
  end.

Section SslContext.

Variable get_oidc_provider : string -> option Settings.provider.
(** [Path(__file__).parent.parent]. *)
Variable package_root : string.
(** pathlib: [str(Path(p))] and [str(root / p)], the text of a path after
    pathlib has put it in its normal form. *)
Variable str_Path : string -> string.
Variable joinpath : string -> string -> string.
(** [Path.exists], by the text of the path. *)
Variable exists_file : string -> bool.
(** [create_default_context] followed by [load_verify_locations], which
    raises on a file that is not a certificate. *)
Variable load_verify_locations : string -> result SSLContext.

Definition resolve (ca_cert_path : string) : string :=
  if is_absolute ca_cert_path then str_Path ca_cert_path
  else joinpath package_root ca_cert_path.

Definition _get_ssl_context (self : service) (provider_id : string)
  : result (option SSLContext) * service :=
  match _ssl_contexts self !! provider_id with
  | Some ctx => (ret (Some ctx), self)
  | None =>
      match get_oidc_provider provider_id with
      | None =>
          (raise (AttributeError "'NoneType' object has no attribute 'get'"),
           self)
      | Some provider =>
          let ca_cert_path := Settings.ca_cert_path provider in
          if negb (truthy_opt ca_cert_path) then (ret None, self)
          else
            let ca_cert_file := resolve (default "" ca_cert_path) in
            if negb (exists_file ca_cert_file) then
              (ret None,
               {| _ssl_contexts := _ssl_contexts self;
                  warnings := warnings self
                                ++ ["CA cert not found: " ++ ca_cert_file] |})
            else
              match load_verify_locations ca_cert_file with
              | inl e => (inl e, self)
              | inr ssl_context =>
                  (ret (Some ssl_context),
                   {| _ssl_contexts :=
                        <[provider_id := ssl_context]> (_ssl_contexts self);
                      warnings := warnings self |})
              end
      end
  end.

End SslContext.
End Trust.

(** ** Provider registry *)

Module Registry.

(** The failures of the registry and of the provisioning bridge, with the
    names of the error taxonomy. *)
Inductive flow_error : Type :=
| ConfigError (provider field : string)
| NotFound
| Disabled
| ProvisioningDisabled.

(** Pattern 1 words the failure as
    [f"Provider '{provider_id}' missing required 'client_id'"]. *)
Definition detail (e : flow_error) : string :=
  match e with
  | ConfigError provider field =>
      "Provider '" ++ provider ++ "' missing required '" ++ field ++ "'"
  | NotFound => "Provider not found"
  | Disabled => "Provider disabled"
  | ProvisioningDisabled => "User provisioning disabled"
  end.

(** The four mandatory fields. *)
Inductive mandatory : Type :=
| DiscoveryUrl | ClientId | ClientSecret | RedirectUri.

Definition mandatory_fields : list mandatory :=
  [DiscoveryUrl; ClientId; ClientSecret; RedirectUri].

Definition key (f : mandatory) : string :=
  match f with
  | DiscoveryUrl => "discovery_url"
  | ClientId => "client_id"
  | ClientSecret => "client_secret"
  | RedirectUri => "redirect_uri"
  end.

(** [provider_config.get(key)] *)
Definition field (f : mandatory) (p : Settings.provider) : option string :=
  match f with
  | DiscoveryUrl => Settings.discovery_url p
  | ClientId => Settings.client_id p
  | ClientSecret => Settings.client_secret p
  | RedirectUri => Settings.redirect_uri p
  end.

(** Pattern 1: [if not client_id:], the key is absent or its value empty. *)
Definition missing (f : mandatory) (p : Settings.provider) : bool :=
  negb (truthy_opt (field f p)).

(** One loaded provider, every optional field defaulted. *)
Record ProviderConfig : Type := {
  id : string;
  enabled : bool;
  name : string;
  description : string;
  icon : string;
  display_order : Z;
  discovery_url : string;
  client_id : string;
  client_secret : string;
  redirect_uri : string;
  scopes : list string;
  ca_cert_path : option string;
  claim_mappings : gmap string string;
  auto_provision : bool;
  default_role : string;
  username_prefix : string
}.

(** The value a loaded provider holds for a mandatory field. *)
Definition loaded_field (f : mandatory) (c : ProviderConfig) : string :=
  match f with
  | DiscoveryUrl => discovery_url c
  | ClientId => client_id c
  | ClientSecret => client_secret c
  | RedirectUri => redirect_uri c
  end.

(** Modelled from the spec: the field defaults applied by the absent
    [settings_manager.py], with the default values listed under "Optional
    fields with defaults" of the guide; a provider without an [enabled] key
    is not enabled. *)
Definition apply_defaults (provider_id : string) (p : Settings.provider)
  : ProviderConfig :=
  {| id := provider_id;
     enabled := default false (Settings.enabled p);
     name := default provider_id (Settings.name p);
     description := default "" (Settings.description p);
     icon := default "" (Settings.icon p);
     display_order := default 999%Z (Settings.display_order p);
     discovery_url := default "" (Settings.discovery_url p);
     client_id := default "" (Settings.client_id p);
     client_secret := default "" (Settings.client_secret p);
     redirect_uri := default "" (Settings.redirect_uri p);
     scopes := default ["openid"; "profile"; "email"] (Settings.scopes p);
     ca_cert_path := Settings.ca_cert_path p;
     claim_mappings := default ∅ (Settings.claim_mappings p);
     auto_provision := default true (Settings.auto_provision p);
     default_role := default "user" (Settings.default_role p);
     username_prefix := default "" (Settings.username_prefix p) |}.

(** Modelled from the spec: the per-provider validation of [loadProviders]
    ([settings_manager.py] is absent): the first mandatory field that is
    empty or absent rejects the entry with a [ConfigError] naming the
    provider and the field; otherwise the entry is loaded with its defaults
    applied. *)
Definition validate (provider_id : string) (p : Settings.provider)
  : flow_error + ProviderConfig :=
  match List.find (fun f => missing f p) mandatory_fields with
  | Some f => inl (ConfigError provider_id (key f))
  | None => inr (apply_defaults provider_id p)
  end.

Record loaded : Type := {
  providers : gmap string ProviderConfig;
  errors : gmap string flow_error
}.

(** Modelled from the spec: [loadProviders(source)] of the absent
    [settings_manager.py]. The source has one entry per provider
    identifier; each entry is validated on its own, a rejected one is
    reported under its identifier and left out of the provider set, and
    loading goes on with the others. *)
Definition loadProviders (source : gmap string Settings.provider) : loaded :=
  {| providers :=
       map_imap (fun i p => match validate i p with
                            | inr c => Some c
                            | inl _ => None
                            end) source;
     errors :=
       map_imap (fun i p => match validate i p with
                            | inr _ => None
                            | inl e => Some e
                            end) source |}.

(** Modelled from the spec: the order of [listEnabled], "[display_order]
    ascending then identifier". *)
Definition before (c1 c2 : ProviderConfig) : Prop :=
  (display_order c1 < display_order c2)%Z
  \/ (display_order c1 = display_order c2 /\ String.le (id c1) (id c2)).

#[export] Instance before_dec : RelDecision before.
Proof. intros c1 c2. unfold before. apply _. Defined.

(** Modelled from the spec: [listEnabled()] of the absent registry code:
    the providers with [enabled = true], sorted by [before]. *)
Definition listEnabled (reg : gmap string ProviderConfig)
  : list ProviderConfig :=
  merge_sort before
    (List.filter (fun c => enabled c) (map_to_list reg).*2).

(** Modelled from the spec: [get(id)] of the absent registry code, which
    tells an unknown provider from a disabled one. *)
Definition get (reg : gmap string ProviderConfig) (i : string)
  : flow_error + ProviderConfig :=
  match reg !! i with
  | None => inl NotFound
  | Some c => if enabled c then inr c else inl Disabled
  end.

End Registry.

(** ** User provisioning bridge *)

Module Provisioning.

Record MappedIdentity : Type := {
  username : string;
  email : option string;
  display_name : string;
  provider : string
}.

Record LocalUser : Type := {
  local_username : string;
  local_email : option string;
  local_display_name : string;
  role : string;
  origin : string
}.

Section Bridge.

(** The lookup policy of the user store: by pair of provider and username,
    or by username alone. *)
Variable find_user :
  gmap string LocalUser -> string -> string -> option LocalUser.

(** Modelled from the spec: [resolveUser(providerId, mappedIdentity)] of
    the absent [provision_or_get_user]: an existing user is returned as it
    is; an absent one is created with the default role and the prefixed
    username when [auto_provision] holds, and refused with
    [ProvisioningDisabled] otherwise. The user store is threaded through. *)
Definition resolveUser (reg : gmap string Registry.ProviderConfig)
    (store : gmap string LocalUser) (providerId : string)
    (mi : MappedIdentity)
  : (Registry.flow_error + LocalUser) * gmap string LocalUser :=
  match reg !! providerId with
  | None => (inl Registry.NotFound, store)
  | Some cfg =>
      let local := Registry.username_prefix cfg ++ username mi in
      match find_user store providerId local with
      | Some u => (inr u, store)
      | None =>
          if Registry.auto_provision cfg then
            let u := {| local_username := local;
                        local_email := email mi;
                        local_display_name := display_name mi;
                        role := Registry.default_role cfg;
                        origin := providerId |} in
            (inr u, <[local := u]> store)
          else (inl Registry.ProvisioningDisabled, store)
      end
  end.

End Bridge.

(** The two policies the specification names. *)
Definition by_username (store : gmap string LocalUser)
    (providerId local : string) : option LocalUser :=
  store !! local.

Definition by_provider_and_username (store : gmap string LocalUser)
    (providerId local : string) : option LocalUser :=
  match store !! local with
  | Some u => if String.eqb (origin u) providerId then Some u else None
  | None => None
  end.

End Provisioning.

(** ** Frontend auth store ([lib/auth-store.ts]) *)

Module AuthStore.

(** A JavaScript value as [JSON.parse] can return it. *)
Inductive json : Type :=
| JNull
| JBool (b : bool)
| JNumber (n : Z)
| JString (s : string)
| JArray (items : list json)
| JObject (members : list (string * json)).

(** Truthiness, as [if (token && user)] tests it. *)
Definition truthy_json (v : json) : bool :=
  match v with
  | JNull => false
  | JBool b => b
  | JNumber n => negb (n =? 0)%Z
  | JString s => truthy s
  | JArray _ | JObject _ => true
  end.

(** The browser side: whether [window] (and so [document]) exists, the
    cookie jar and [localStorage]. *)
Record browser : Type := {
  has_window : bool;
  jar : gmap string string;
  localStorage : gmap string string
}.

(** The zustand state; [None] and [JNull] stand for [null]. *)
Record AuthState : Type := {
  token : option string;
  user : json;
  isAuthenticated : bool
}.

Definition initial : AuthState :=
  {| token := None; user := JNull; isAuthenticated := false |}.

(** js-cookie: [get], [set] and [remove] do nothing without a document. *)
Definition Cookies_get (name : string) (w : browser) : option string :=
  if has_window w then jar w !! name else None.

Definition Cookies_set (name value : string) (w : browser) : browser :=
  if has_window w then
    {| has_window := has_window w; jar := <[name := value]> (jar w);
       localStorage := localStorage w |}
  else w.

Definition Cookies_remove (name : string) (w : browser) : browser :=
  if has_window w then
    {| has_window := has_window w; jar := delete name (jar w);
       localStorage := localStorage w |}
  else w.

Definition localStorage_removeItem (name : string) (w : browser) : browser :=
  {| has_window := has_window w; jar := jar w;
     localStorage := delete name (localStorage w) |}.

Section Store.

(** [JSON.parse] ([None] when it throws) and [JSON.stringify]. *)
Variable JSON_parse : string -> option json.
Variable JSON_stringify : json -> string.

Definition getCookieToken (w : browser) : option string :=
  if negb (has_window w) then None
  else match Cookies_get "cockpit_auth_token" w with
       | Some t => if truthy t then Some t else None
       | None => None
       end.

Definition getCookieUser (w : browser) : json :=
  if negb (has_window w) then JNull
  else match Cookies_get "cockpit_user_info" w with
       | None => JNull
       | Some userCookie =>
           if negb (truthy userCookie) then JNull
           else match JSON_parse userCookie with
                | Some v => v
                | None => JNull
                end
       end.

Definition setCookieToken (t : string) (w : browser) : browser :=
  Cookies_set "cockpit_auth_token" t w.

Definition setCookieUser (u : json) (w : browser) : browser :=
  Cookies_set "cockpit_user_info" (JSON_stringify u) w.

Definition removeCookies (w : browser) : browser :=
  let w1 := Cookies_remove "cockpit_auth_token" w in
  let w2 := Cookies_remove "cockpit_user_info" w1 in
  if has_window w2 then
    localStorage_removeItem "cockpit-auth"
      (localStorage_removeItem "user_info"
         (localStorage_removeItem "auth_token" w2))
  else w2.

Definition cleared : AuthState :=
  {| token := None; user := JNull; isAuthenticated := false |}.

Definition login (t : string) (u : json) (ws : browser * AuthState)
  : browser * AuthState :=
  let w := setCookieUser u (setCookieToken t ws.1) in
  (w, {| token := Some t; user := u; isAuthenticated := true |}).

Definition logout (ws : browser * AuthState) : browser * AuthState :=
  (removeCookies ws.1, cleared).

Definition setUser (u : json) (ws : browser * AuthState)
  : browser * AuthState :=
  (setCookieUser u ws.1,
   {| token := token ws.2; user := u;
      isAuthenticated := isAuthenticated ws.2 |}).

Definition hydrate (ws : browser * AuthState) : browser * AuthState :=
  let t := getCookieToken ws.1 in
  let u := getCookieUser ws.1 in
  if truthy_opt t && truthy_json u then
    (ws.1, {| token := t; user := u; isAuthenticated := true |})
  else (removeCookies ws.1, cleared).

(** The operations of the store, for runs of any length. *)
Inductive action : Type :=
| Login (t : string) (u : json)
| Logout
| SetUser (u : json)
| Hydrate.

Definition step (ws : browser * AuthState) (a : action)
  : browser * AuthState :=
  match a with
  | Login t u => login t u ws
  | Logout => logout ws
  | SetUser u => setUser u ws
  | Hydrate => hydrate ws
  end.

Definition run (ws : browser * AuthState) (acts : list action)
  : browser * AuthState :=
  fold_left step acts ws.

End Store.

(** The TypeScript signatures [login(token: string, user: User)] and
    [setUser(user: User)] exclude [null]. *)
Definition well_typed (a : action) : Prop :=
  match a with
  | Login _ u | SetUser u => u <> JNull
  | Logout | Hydrate => True
  end.

(** Both auth cookies are gone. *)
Definition no_auth_cookies (w : browser) : Prop :=
  Cookies_get "cockpit_auth_token" w = None
  /\ Cookies_get "cockpit_user_info" w = None.

(** [isAuthenticated] exactly when [token] is not [null], and then [user]
    is not [null] either. *)
Definition consistent (s : AuthState) : Prop :=
  (isAuthenticated s = true <-> token s <> None)
  /\ (isAuthenticated s = true -> user s <> JNull).

End AuthStore.

(** ** Role permission masks ([permissions-management.tsx]) *)

Module Permissions.

Local Open Scope Z_scope.

Definition PERMISSION_READ : Z := 1.
Definition PERMISSION_WRITE : Z := 2.
Definition PERMISSION_ADMIN : Z := 4.
Definition PERMISSION_DELETE : Z := 8.
Definition PERMISSION_USER_MANAGE : Z := 16.

Definition PERMISSIONS_VIEWER : Z := PERMISSION_READ.
Definition PERMISSIONS_USER : Z := Z.lor PERMISSION_READ PERMISSION_WRITE.
Definition PERMISSIONS_ADMIN : Z :=
  Z.lor (Z.lor (Z.lor (Z.lor PERMISSION_READ PERMISSION_WRITE)
                   PERMISSION_ADMIN) PERMISSION_DELETE)
    PERMISSION_USER_MANAGE.

Definition ROLE_PERMISSIONS : gmap string Z :=
  {[ "viewer"%string := PERMISSIONS_VIEWER;
     "user"%string := PERMISSIONS_USER;
     "admin"%string := PERMISSIONS_ADMIN ]}.

(** Every bit of [a] is a bit of [b]. *)
Definition granted_by (a b : Z) : Prop :=
  forall i, Z.testbit a i = true -> Z.testbit b i = true.

End Permissions.

(** ** JavaScript values shared by the frontend modules *)

Module Js.

(** A thrown value or the reason of a rejected promise. *)
Inductive error : Type :=
| Error (message : string)
| TypeError (message : string)
| SyntaxError (message : string)
| RangeError (message : string).

(** An awaited promise: rejected with an error or fulfilled with a value. *)
Definition promise (A : Type) : Type := (error + A)%type.

(** [haystack.includes(needle)] *)
Fixpoint includes (needle haystack : string) : bool :=
  String.prefix needle haystack
  || match haystack with
     | EmptyString => false
     | String _ rest => includes needle rest
     end.

(** [value.name] on a parsed JSON value other than [null]: an object gives
    the member if it has one, anything else gives [undefined]. *)
Fixpoint assoc (name : string) (members : list (string * AuthStore.json))
  : option AuthStore.json :=
  match members with
  | [] => None
  | (k, v) :: rest => if String.eqb k name then Some v else assoc name rest
  end.

Definition member (name : string) (v : AuthStore.json)
  : option AuthStore.json :=
  match v with
  | AuthStore.JObject members => assoc name members
  | _ => None
  end.

(** What [fetch] is given and what it resolves to. Header names of a
    response are lower case, as [Headers] keeps them. *)
Record RequestInit : Type := {
  method : option string;
  headers : option (gmap string string);
  body : option string
}.

Record Response : Type := {
  status : Z;
  statusText : string;
  url : string;
  response_headers : gmap string string;
  text : promise string;
  json : promise AuthStore.json
}.

(** [response.ok]: a status from 200 to 299. *)
Definition ok (r : Response) : bool :=
  (200 <=? status r)%Z && (status r <=? 299)%Z.

(** ASCII lower case, the normal form of a header name. *)
Definition lower_ascii (c : ascii) : ascii :=
  let n := nat_of_ascii c in
  if (65 <=? n)%nat && (n <=? 90)%nat then ascii_of_nat (n + 32) else c.

Fixpoint lower (s : string) : string :=
  match s with
  | EmptyString => EmptyString
  | String c rest => String (lower_ascii c) (lower rest)
  end.

(** [array.join(sep)] *)
Fixpoint join (sep : string) (pieces : list string) : string :=
  match pieces with
  | [] => ""
  | [p] => p
  | p :: rest => p ++ sep ++ join sep rest
  end.

End Js.

(** ** [hooks/use-api.ts] *)

Module UseApi.

Inductive http_method : Type := GET | POST | PUT | DELETE | PATCH.

Definition method_name (m : http_method) : string :=
  match m with
  | GET => "GET" | POST => "POST" | PUT => "PUT"
  | DELETE => "DELETE" | PATCH => "PATCH"
  end.

(** [['POST', 'PUT', 'PATCH'].includes(method)] *)
Definition carries_body (m : http_method) : bool :=
  match m with
  | POST | PUT | PATCH => true
  | GET | DELETE => false
  end.

Record ApiOptions : Type := {
  method : option http_method;
  body : option AuthStore.json;
  headers : option (gmap string string)
}.

(** The store the hook reads, and the timers [setTimeout] has armed: delay
    in milliseconds and the route [router.push] will be given. *)
Record world : Type := {
  store : AuthStore.browser * AuthStore.AuthState;
  timers : list (Z * string)
}.

Section ApiCall.

Variable JSON_parse : string -> option AuthStore.json.
Variable JSON_stringify : AuthStore.json -> string.
(** [String(value)] for a value that is not a string. *)
Variable ToString : AuthStore.json -> string.
Variable fetch : string -> Js.RequestInit -> Js.promise Js.Response.

Definition to_string (v : AuthStore.json) : string :=
  match v with
  | AuthStore.JString s => s
  | _ => ToString v
  end.

(** The headers and the options handed to [fetch]. *)
Definition defaultHeaders (token : option string) (options : ApiOptions)
  : gmap string string :=
  let headers := default ∅ (headers options) in
  let defaultHeaders := headers ∪ {[ "Content-Type" := "application/json" ]} in
  if truthy_opt token then
    <[ "Authorization" := "Bearer " ++ default "" token ]> defaultHeaders
  else defaultHeaders.

Definition fetchOptions (token : option string) (options : ApiOptions)
  : Js.RequestInit :=
  let method := default GET (method options) in
  {| Js.method := Some (method_name method);
     Js.headers := Some (defaultHeaders token options);
     Js.body :=
       match body options with
       | Some b =>
           if AuthStore.truthy_json b && carries_body method then
             Some (match b with
                   | AuthStore.JString s => s
                   | _ => JSON_stringify b
                   end)
           else None
       | None => None
       end |}.

(** The message of a 403: [errorData.detail || 'Access denied'], with the
    default kept when the text does not parse or parses to [null]. *)
Definition forbidden_message (errorText : string) : string :=
  match JSON_parse errorText with
  | None | Some AuthStore.JNull => "Access denied"
  | Some errorData =>
      match Js.member "detail" errorData with
      | Some detail =>
          if AuthStore.truthy_json detail then to_string detail
          else "Access denied"
      | None => "Access denied"
      end
  end.

Definition apiCall (w : world) (endpoint : string) (options : ApiOptions)
  : Js.promise AuthStore.json * world :=
  let token := AuthStore.token (store w).2 in
  match fetch ("/api/proxy/" ++ endpoint) (fetchOptions token options) with
  | inl e => (inl e, w)
  | inr response =>
      if negb (Js.ok response) then
        match Js.text response with
        | inl e => (inl e, w)
        | inr errorText =>
            if (Js.status response =? 401)%Z then
              (inl (Js.Error "Session expired, redirecting to login..."),
               {| store := AuthStore.logout (store w);
                  timers := timers w ++ [(100%Z, "/login")] |})
            else if (Js.status response =? 403)%Z then
              (inl (Js.Error (forbidden_message errorText)), w)
            else
              (inl (Js.Error ("API Error " ++ pretty (Js.status response)
                                ++ ": " ++ errorText)), w)
        end
      else
        match Js.response_headers response !! "content-type" with
        | Some contentType =>
            if truthy contentType
               && Js.includes "application/json" contentType
            then (Js.json response, w)
            else (inr (AuthStore.JObject []), w)
        | None => (inr (AuthStore.JObject []), w)
        end
  end.

End ApiCall.
End UseApi.

(** ** [app/api/proxy/[...path]/route.ts] *)

Module Proxy.

(** The part of a [NextRequest] the handlers read: its headers (by lower
    case name), the query string of its URL and its body. *)
Record NextRequest : Type := {
  request_headers : gmap string string;
  search : string;
  request_text : Js.promise string
}.

(** A response body: text, or the value given to [NextResponse.json]. *)
Inductive payload : Type :=
| Text (data : string)
| Json (value : AuthStore.json).

Record NextResponse : Type := {
  status : Z;
  headers : gmap string string;
  body : payload
}.

(** The statuses that allow no body. *)
Definition null_body_status (s : Z) : bool :=
  bool_decide (s ∈ [101; 103; 204; 205; 304]%Z).

(** [new NextResponse(data, { status, headers })] with a string for
    [data]: the constructor of [Response] throws a [RangeError] for a status
    outside 200..599 and a [TypeError] for a body together with a status
    that allows none. *)
Definition new_NextResponse (data : string) (s : Z)
    (h : gmap string string) : Js.promise NextResponse :=
  if (s <? 200)%Z || (599 <? s)%Z then
    inl (Js.RangeError "init[status] must be in the range of 200 to 599, inclusive.")
  else if null_body_status s then
    inl (Js.TypeError "Invalid response status code")
  else inr {| status := s; headers := h; body := Text data |}.

(** [NextResponse.json({ error: 'Failed to fetch from backend' }, { status: 500 })] *)
Definition failure : NextResponse :=
  {| status := 500;
     headers := {[ "content-type" := "application/json" ]};
     body := Json (AuthStore.JObject
                     [("error", AuthStore.JString "Failed to fetch from backend")]) |}.

(** [response.headers.get('content-type') || 'application/json'] *)
Definition answered_type (r : Js.Response) : string :=
  match Js.response_headers r !! "content-type" with
  | Some ct => if truthy ct then ct else "application/json"
  | None => "application/json"
  end.

(** The backend's status and text, under the answered content type. *)
Definition copy_of (r : Js.Response) (data : string) : NextResponse :=
  {| status := Js.status r;
     headers := {[ "content-type" := answered_type r ]};
     body := Text data |}.

(** [headers.set(name, value)] on a [Headers] object. *)
Definition Headers_set (name value : string) (h : gmap string string)
  : gmap string string :=
  <[ Js.lower name := value ]> h.

Section Handlers.

(** [process.env.NEXT_PUBLIC_BACKEND_URL] and the global [fetch]. *)
Variable NEXT_PUBLIC_BACKEND_URL : option string.
Variable fetch : string -> Js.RequestInit -> Js.promise Js.Response.

Definition BACKEND_URL : string :=
  if truthy_opt NEXT_PUBLIC_BACKEND_URL
  then default "" NEXT_PUBLIC_BACKEND_URL
  else "http://localhost:8000".

Definition backendUrl (request : NextRequest) (path : list string) : string :=
  BACKEND_URL ++ "/" ++ Js.join "/" path ++ search request.

(** Forward a request header when it is present. *)
Definition forward_header (request : NextRequest) (name Name : string)
    (h : gmap string string) : gmap string string :=
  match request_headers request !! name with
  | Some value => if truthy value then Headers_set Name value h else h
  | None => h
  end.

(** The headers built for the backend: [authorization] always,
    [content-type] in every handler but [DELETE]. *)
Definition forwarded_headers (with_content_type : bool)
    (request : NextRequest) : gmap string string :=
  let h := forward_header request "authorization" "Authorization" ∅ in
  if with_content_type
  then forward_header request "content-type" "Content-Type" h
  else h.

(** What the handler hands to [fetch]; reading the body may fail. *)
Definition backend_init (method : string) (with_content_type with_body : bool)
    (request : NextRequest) : Js.promise Js.RequestInit :=
  let h := forwarded_headers with_content_type request in
  if with_body then
    match request_text request with
    | inl e => inl e
    | inr body =>
        inr {| Js.method := Some method; Js.headers := Some h;
               Js.body := if truthy body then Some body else None |}
    end
  else inr {| Js.method := Some method; Js.headers := Some h;
              Js.body := None |}.

(** The body of the [try] block. *)
Definition attempt (method : string) (with_content_type with_body : bool)
    (request : NextRequest) (path : list string)
  : Js.promise NextResponse :=
  match backend_init method with_content_type with_body request with
  | inl e => inl e
  | inr init =>
      match fetch (backendUrl request path) init with
      | inl e => inl e
      | inr response =>
          match Js.text response with
          | inl e => inl e
          | inr data =>
              new_NextResponse data (Js.status response)
                (Headers_set "Content-Type" (answered_type response) ∅)
          end
      end
  end.

(** [try { ... } catch (error) { return NextResponse.json(..., 500) }] *)
Definition handler (method : string) (with_content_type with_body : bool)
    (request : NextRequest) (path : list string) : NextResponse :=
  match attempt method with_content_type with_body request path with
  | inr response => response
  | inl _ => failure
  end.

Definition GET := handler "GET" true false.
Definition POST := handler "POST" true true.
Definition PUT := handler "PUT" true true.
Definition DELETE := handler "DELETE" false false.
Definition PATCH := handler "PATCH" true true.

End Handlers.
End Proxy.

(** ** The debug logger ([lib/debug]) *)

Module Debug.

Inductive console_method : Type :=
| log | info | warn | error | group | groupEnd | table | time | timeEnd.

(** One argument of a console call. *)
Inductive arg : Type :=
| Str (s : string)
| Value (v : AuthStore.json)
| Thrown (e : Js.error)
| Headers (h : gmap string string)
| NotOk (status : Z) (statusText url : string).

(** The module variable [debugEnabled] and what reached the console. *)
Record state : Type := {
  debugEnabled : bool;
  console : list (console_method * list arg)
}.

Definition emit (m : console_method) (args : list arg) (s : state) : state :=
  {| debugEnabled := debugEnabled s; console := console s ++ [(m, args)] |}.

(** A method of [debug]: silent unless debugging is enabled. *)
Definition guarded (m : console_method) (args : list arg) (s : state)
  : state :=
  if debugEnabled s then emit m args s else s.

Definition debug_log (args : list arg) : state -> state :=
  guarded log (Str "🐛 [DEBUG]" :: args).
Definition debug_info (args : list arg) : state -> state :=
  guarded info (Str "ℹ️ [DEBUG]" :: args).
Definition debug_warn (args : list arg) : state -> state :=
  guarded warn (Str "⚠️ [DEBUG]" :: args).
Definition debug_error (args : list arg) : state -> state :=
  guarded error (Str "❌ [DEBUG]" :: args).
Definition debug_group (label : string) : state -> state :=
  guarded group [Str ("🔍 [DEBUG] " ++ label)].
Definition debug_groupEnd : state -> state :=
  guarded groupEnd [].
Definition debug_table (data : arg) : state -> state :=
  guarded table [data].
Definition debug_time (label : string) : state -> state :=
  guarded time [Str ("⏱️ [DEBUG] " ++ label)].
Definition debug_timeEnd (label : string) : state -> state :=
  guarded timeEnd [Str ("⏱️ [DEBUG] " ++ label)].

Definition setDebugEnabled (enabled : bool) (s : state) : state :=
  let s := {| debugEnabled := enabled; console := console s |} in
  if enabled then
    debug_log [Str "Debug mode ENABLED - Enhanced logging active"] s
  else
    emit log [Str "🐛 [DEBUG] Debug mode DISABLED - Enhanced logging stopped"] s.

Definition isDebugEnabled (s : state) : bool := debugEnabled s.

(** An absent [options] argument of [fetch] is an empty one. *)
Definition no_options : Js.RequestInit :=
  {| Js.method := None; Js.headers := None; Js.body := None |}.

Section DebugFetch.

Variable fetch : string -> Js.RequestInit -> Js.promise Js.Response.
(** What the rest of the program did to the flag and to the console while
    the call was suspended at [await fetch(url, options)]. *)
Variable meanwhile : state -> state.

(** [options?.method || 'GET'] *)
Definition method_or_GET (options : option Js.RequestInit) : string :=
  match options with
  | Some o => if truthy_opt (Js.method o) then default "" (Js.method o)
              else "GET"
  | None => "GET"
  end.

(** The statements before the [await]. *)
Definition debugFetch_before (url : string) (options : option Js.RequestInit)
    (s : state) : state :=
  let s := debug_group ("HTTP " ++ method_or_GET options ++ " " ++ url) s in
  let s := debug_time ("Request to " ++ url) s in
  let s := match options with
           | Some o =>
               match Js.body o with
               | Some b => if truthy b
                           then debug_log [Str "Request body:"; Str b] s
                           else s
               | None => s
               end
           | None => s
           end in
  match options with
  | Some o =>
      match Js.headers o with
      | Some h => debug_log [Str "Request headers:"; Headers h] s
      | None => s
      end
  | None => s
  end.

(** The statements after the [await], in the [try] block when [fetch]
    resolved and in the [catch] block when it rejected. *)
Definition debugFetch_after (url : string)
    (outcome : Js.promise Js.Response) (s : state)
  : Js.promise Js.Response * state :=
  match outcome with
  | inr response =>
      let s := debug_timeEnd ("Request to " ++ url) s in
      let s := debug_log
                 [Str ("Response status: " ++ pretty (Js.status response)
                         ++ " " ++ Js.statusText response)] s in
      let s := if negb (Js.ok response) then
                 debug_warn [Str "Response not OK:";
                             NotOk (Js.status response)
                               (Js.statusText response) (Js.url response)] s
               else s in
      let s := debug_groupEnd s in
      (inr response, s)
  | inl e =>
      let s := debug_timeEnd ("Request to " ++ url) s in
      let s := debug_error [Str "Fetch error:"; Thrown e] s in
      let s := debug_groupEnd s in
      (inl e, s)
  end.

Definition debugFetch (url : string) (options : option Js.RequestInit)
    (s : state) : Js.promise Js.Response * state :=
  debugFetch_after url (fetch url (default no_options options))
    (meanwhile (debugFetch_before url options s)).

End DebugFetch.

#[export] Instance console_method_eq_dec : EqDecision console_method.
Proof. solve_decision. Defined.

(** How many console calls of a kind were made. *)
Definition count (m : console_method) (s : state) : nat :=
  length (filter (fun entry => entry.1 = m) (console s)).

End Debug.

(** ** User management ([settings/permissions-management.tsx]) *)

Module UserManagement.

Inductive role : Type := admin | user | viewer | custom.

Record User : Type := {
  id : Z;
  username : string;
  realname : string;
  email : option string;
  user_role : role;
  permissions : Z;
  debug : bool;
  is_active : bool;
  created_at : string;
  updated_at : string
}.

Record UserFormData : Type := {
  form_username : string;
  form_realname : string;
  form_email : option string;
  form_password : string;
  form_role : role;
  form_debug : bool;
  form_is_active : bool
}.

(** A [Set<number>]: its elements in insertion order, each once. *)
Definition Set_has (x : Z) (s : list Z) : bool := bool_decide (x ∈ s).

Definition Set_add (x : Z) (s : list Z) : list Z :=
  if Set_has x s then s else s ++ [x].

Definition Set_delete (x : Z) (s : list Z) : list Z :=
  filter (fun y => y <> x) s.

(** [new Set(array)] *)
Definition Set_of (xs : list Z) : list Z :=
  fold_left (fun s x => Set_add x s) xs [].

(** The updater of [handleSelectUser]. *)
Definition handleSelectUser (userId : Z) (checked : bool) (prev : list Z)
  : list Z :=
  if checked then Set_add userId prev else Set_delete userId prev.

(** The selection [handleSelectAll] sets. *)
Definition handleSelectAll (checked : bool) (users : list User) : list Z :=
  if checked then Set_of (id <$> users) else [].

(** The updater [deleteUser] applies once the user is deleted. *)
Definition deleteUser_selection (userId : Z) (prev : list Z) : list Z :=
  Set_delete userId prev.

(** The header checkbox:
    [selectedUsers.size === users.length && users.length > 0]. *)
Definition all_checked (selectedUsers : list Z) (users : list User) : bool :=
  (length selectedUsers =? length users)%nat && (0 <? length users)%nat.

(** The checkbox of a row: [selectedUsers.has(user.id)]. *)
Definition row_checked (selectedUsers : list Z) (u : User) : bool :=
  Set_has (id u) selectedUsers.

(** The body [saveUser] sends; [None] is [undefined], a key
    [JSON.stringify] leaves out. *)
Record payload : Type := {
  payload_username : string;
  payload_realname : string;
  payload_email : option string;
  payload_password : option string;
  payload_role : role;
  payload_debug : bool;
  payload_is_active : bool
}.

Definition or_undefined (s : string) : option string :=
  if truthy s then Some s else None.

Definition payload_of (formData : UserFormData) : payload :=
  {| payload_username := form_username formData;
     payload_realname := form_realname formData;
     payload_email :=
       if truthy_opt (form_email formData) then form_email formData else None;
     payload_password := or_undefined (form_password formData);
     payload_role := form_role formData;
     payload_debug := form_debug formData;
     payload_is_active := form_is_active formData |}.

Section Save.

(** The text a template literal gives for a number, as in
    [`rbac/users/${editingUser.id}`]. *)
Variable Number_toString : Z -> string.

(** The call [saveUser] makes: endpoint, method and body; [None] when the
    form is refused with 'Please fill in all required fields'. *)
Definition saveUser_request (formData : UserFormData)
    (editingUser : option User)
  : option (string * UseApi.http_method * payload) :=
  if negb (truthy (form_username formData))
     || negb (truthy (form_realname formData))
     || (negb (bool_decide (is_Some editingUser))
         && negb (truthy (form_password formData)))
  then None
  else
    match editingUser with
    | Some u =>
        Some ("rbac/users/" ++ Number_toString (id u), UseApi.PUT,
              payload_of formData)
    | None => Some ("rbac/users", UseApi.POST, payload_of formData)
    end.

End Save.

(** The form [openEditDialog] fills in. *)
Definition openEditDialog (u : User) : UserFormData :=
  {| form_username := username u;
     form_realname := realname u;
     form_email := Some (if truthy_opt (email u) then default "" (email u)
                         else "");
     form_password := "";
     form_role := user_role u;
     form_debug := debug u;
     form_is_active := is_active u |}.

End UserManagement.

(** ** Profile page ([components/profile/profile-page.tsx]) *)

Module Profile.
Section Page.

(** A password is the sequence of the code units of a JavaScript string,
    whose [length] counts them. *)
Context {code_unit : Type} `{EqDecision code_unit}.

Record passwords : Type := {
  newPassword : list code_unit;
  confirmPassword : list code_unit
}.

(** Truthiness of a string: it is not empty. *)
Definition filled (s : list code_unit) : bool :=
  match s with
  | [] => false
  | _ :: _ => true
  end.

(** [validatePasswords]: the verdict and the error message it sets. *)
Definition validatePasswords (p : passwords) : bool * string :=
  if filled (newPassword p) || filled (confirmPassword p) then
    if negb (bool_decide (newPassword p = confirmPassword p)) then
      (false, "Passwords do not match")
    else if (length (newPassword p) <? 4)%nat then
      (false, "Password must be at least 4 characters long")
    else (true, "")
  else (true, "").

End Page.
End Profile.

(** * Scenario data *)

(** The raw claim set of the scenario. *)
Definition raw_claims : gmap string string :=
  {[ "sub" := "u1"; "preferred_username" := "u2" ]}.

(** A registry with the two providers of the scenario. *)
Definition alpha_entry : Settings.provider :=
  {| Settings.enabled := Some true;
     Settings.discovery_url := Some "https://alpha/.well-known/openid-configuration";
     Settings.client_id := Some "app"; Settings.client_secret := Some "s3cret";
     Settings.redirect_uri := Some "https://app/login/callback";
     Settings.name := None; Settings.description := None;
     Settings.icon := None; Settings.display_order := Some 2%Z;
     Settings.ca_cert_path := None; Settings.scopes := None;
     Settings.claim_mappings := Some {[ "username" := "sub" ]};
     Settings.auto_provision := Some false; Settings.default_role := None;
     Settings.username_prefix := None |}.

Definition beta_entry : Settings.provider :=
  {| Settings.enabled := Some true;
     Settings.discovery_url := Some "https://beta/.well-known/openid-configuration";
     Settings.client_id := Some "app"; Settings.client_secret := Some "hunter2";
     Settings.redirect_uri := Some "https://app/login/callback";
     Settings.name := None; Settings.description := None;
     Settings.icon := None; Settings.display_order := Some 1%Z;
     Settings.ca_cert_path := Some "certs/missing.pem";
     Settings.scopes := None; Settings.claim_mappings := None;
     Settings.auto_provision := None; Settings.default_role := None;
     Settings.username_prefix := Some "sso_" |}.

Definition two_providers (provider_id : string) : option Settings.provider :=
  if String.eqb provider_id "alpha" then Some alpha_entry
  else if String.eqb provider_id "beta" then Some beta_entry
  else None.

(** An entry that asks to be enabled and has no [client_secret]. *)
Definition broken_entry : Settings.provider :=
  {| Settings.enabled := Some true;
     Settings.discovery_url := Some "https://corp/.well-known/openid-configuration";
     Settings.client_id := Some "app"; Settings.client_secret := None;
     Settings.redirect_uri := Some "https://app/login/callback";
     Settings.name := None; Settings.description := None;
     Settings.icon := None; Settings.display_order := Some 0%Z;
     Settings.ca_cert_path := None; Settings.scopes := None;
     Settings.claim_mappings := None; Settings.auto_provision := None;
     Settings.default_role := None; Settings.username_prefix := None |}.

Definition yaml_source : gmap string Settings.provider :=
  {[ "alpha" := alpha_entry; "beta" := beta_entry; "broken" := broken_entry ]}.

Definition jdoe : Provisioning.MappedIdentity :=
  {| Provisioning.username := "jdoe"; Provisioning.email := None;
     Provisioning.display_name := "jdoe"; Provisioning.provider := "alpha" |}.

Definition one_user : gmap string Provisioning.LocalUser :=
  {[ "root" := {| Provisioning.local_username := "root";
                  Provisioning.local_email := None;
                  Provisioning.local_display_name := "root";
                  Provisioning.role := "admin";
                  Provisioning.origin := "local" |} ]}.

(** pathlib on texts that are in normal form already: a path reads as
    it is written, and joining puts one slash between root and path. *)
Definition normal_str (path : string) : string := path.

Definition normal_join (root path : string) : string :=
  root ++ "/" ++ path.

(** No file exists; any file that did would load. *)
Definition no_files (path : string) : bool := false.

Definition load_any (path : string) : result Trust.SSLContext :=
  ret {| Trust.cafile := path |}.

Definition fresh_service : Trust.service :=
  {| Trust._ssl_contexts := ∅; Trust.warnings := [] |}.

(** A provider with a certificate of its own, and a file system that has
    it. *)
Definition corp_entry : Settings.provider :=
  {| Settings.enabled := Some true;
     Settings.discovery_url := Some "https://corp/.well-known/openid-configuration";
     Settings.client_id := Some "app"; Settings.client_secret := Some "s3cret";
     Settings.redirect_uri := Some "https://app/login/callback";
     Settings.name := None; Settings.description := None;
     Settings.icon := None; Settings.display_order := None;
     Settings.ca_cert_path := Some "certs/ca.cert.pem";
     Settings.scopes := None; Settings.claim_mappings := None;
     Settings.auto_provision := None; Settings.default_role := None;
     Settings.username_prefix := None |}.

Definition corp_only (provider_id : string) : option Settings.provider :=
  if String.eqb provider_id "corp" then Some corp_entry else None.

Definition ca_present (path : string) : bool :=
  String.eqb path "/app/certs/ca.cert.pem".

Definition no_providers (provider_id : string) : option Settings.provider :=
  None.

(** A user and a stand-in for the JSON codec that knows this user only. *)
Definition admin_user : AuthStore.json :=
  AuthStore.JObject [("id", AuthStore.JString "admin");
                     ("username", AuthStore.JString "admin")].

Definition admin_cookie : string := "{id:admin,username:admin}".

Definition stub_stringify (v : AuthStore.json) : string := admin_cookie.

Definition stub_parse (c : string) : option AuthStore.json :=
  if String.eqb c admin_cookie then Some admin_user else None.

Definition empty_browser : AuthStore.browser :=
  {| AuthStore.has_window := true; AuthStore.jar := ∅;
     AuthStore.localStorage := ∅ |}.

Definition server_side : AuthStore.browser :=
  {| AuthStore.has_window := false; AuthStore.jar := ∅;
     AuthStore.localStorage := ∅ |}.

(** A backend that answers every request alike. *)
Definition answer (status : Z) (content_type : option string)
    (data : string) : Js.Response :=
  {| Js.status := status; Js.statusText := ""; Js.url := "";
     Js.response_headers :=
       match content_type with
       | Some ct => {[ "content-type" := ct ]}
       | None => ∅
       end;
     Js.text := inr data;
     Js.json := inl (Js.SyntaxError "Unexpected token") |}.

Definition always (r : Js.Response) (url : string) (init : Js.RequestInit)
  : Js.promise Js.Response := inr r.

Definition unreachable (url : string) (init : Js.RequestInit)
  : Js.promise Js.Response := inl (Js.TypeError "fetch failed").

Definition plain_call : UseApi.ApiOptions :=
  {| UseApi.method := None; UseApi.body := None; UseApi.headers := None |}.

Definition signed_in : UseApi.world :=
  {| UseApi.store :=
       AuthStore.login stub_stringify "tok" admin_user
         (empty_browser, AuthStore.initial);
     UseApi.timers := [] |}.

Definition forbidden_text : string := "{detail:Admin access required}".

Definition parse_forbidden (c : string) : option AuthStore.json :=
  if String.eqb c forbidden_text
  then Some (AuthStore.JObject
               [("detail", AuthStore.JString "Admin access required")])
  else None.

Definition render (v : AuthStore.json) : string := "".

(** A browser request with a cookie next to its credentials. *)
Definition incoming : Proxy.NextRequest :=
  {| Proxy.request_headers :=
       {[ "authorization" := "Bearer tok"; "cookie" := "sid=1";
          "content-type" := "application/json" ]};
     Proxy.search := "?page=2";
     Proxy.request_text := inr "" |}.

Definition forwarded : Js.RequestInit :=
  {| Js.method := Some "POST";
     Js.headers := Some {[ "authorization" := "Bearer tok";
                           "content-type" := "application/json" ]};
     Js.body := None |}.

Definition listed (i : Z) (n : string) : UserManagement.User :=
  {| UserManagement.id := i; UserManagement.username := n;
     UserManagement.realname := n; UserManagement.email := None;
     UserManagement.user_role := UserManagement.viewer;
     UserManagement.permissions := 1;
     UserManagement.debug := false; UserManagement.is_active := true;
     UserManagement.created_at := ""; UserManagement.updated_at := "" |}.

(** The decimal text of an integer, which is what JavaScript prints for
    the small identifiers of the examples. *)
Definition small_number (n : Z) : string := pretty n.

Definition edit_form : UserManagement.UserFormData :=
  {| UserManagement.form_username := "ann";
     UserManagement.form_realname := "Ann";
     UserManagement.form_email := Some "";
     UserManagement.form_password := "";
     UserManagement.form_role := UserManagement.user;
     UserManagement.form_debug := false;
     UserManagement.form_is_active := true |}.

(** * Properties *)

(** ** State token codec *)

Section StateCodecFacts.
Import StateCodec.

Lemma truthy_true (s : string) : truthy s = true <-> s <> "".
Proof.
  unfold truthy. rewrite negb_true_iff. apply String.eqb_neq.
Qed.

Lemma has_sep_app (p r : string) :
  has_sep (p ++ r) = has_sep p || has_sep r.
Proof.
  induction p as [|c p IH]; simpl; [reflexivity|].
  destruct (Ascii.eqb c SEP); [reflexivity | exact IH].
Qed.

(** Without a separator nothing is cut. *)
Lemma cut_absent (s : string) :
  has_sep s = false -> cut SEP s = (s, None).
Proof.
  induction s as [|c s IH]; simpl; [reflexivity|].
  destruct (Ascii.eqb c SEP); [discriminate|].
  intros H. rewrite (IH H). reflexivity.
Qed.

(** The cut is at the first separator. *)
Lemma cut_first (p r : string) :
  has_sep p = false -> cut SEP (p ++ String SEP r) = (p, Some r).
Proof.
  induction p as [|c p IH]; simpl.
  - intros _. reflexivity.
  - destruct (Ascii.eqb c SEP); [discriminate|].
    intros H. rewrite (IH H). reflexivity.
Qed.

(** A string with a separator decomposes around its first one. *)
Lemma has_sep_decompose (s : string) :
  has_sep s = true ->
  exists p r, s = p ++ String SEP r /\ has_sep p = false.
Proof.
  induction s as [|c s IH]; simpl; [discriminate|].
  destruct (Ascii.eqb c SEP) eqn:E.
  - intros _. apply Ascii.eqb_eq in E. subst c.
    exists "", s. split; reflexivity.
  - intros H. destruct (IH H) as (p & r & -> & Hp).
    exists (String c p), r. split; [reflexivity|].
    simpl. rewrite E. exact Hp.
Qed.

Lemma js_split_all_first (p r : string) :
  has_sep p = false ->
  js_split_all SEP (p ++ String SEP r) = p :: js_split_all SEP r.
Proof.
  induction p as [|c p IH]; simpl.
  - intros _. reflexivity.
  - destruct (Ascii.eqb c SEP); [discriminate|].
    intros H. rewrite (IH H). reflexivity.
Qed.

Lemma parse_absent (s : string) :
  has_sep s = false -> parse s = raise MalformedState.
Proof.
  intros H. unfold parse. simpl. rewrite (cut_absent _ H). reflexivity.
Qed.

Lemma parse_first (p r : string) :
  has_sep p = false -> parse (p ++ String SEP r) = ret (p, r).
Proof.
  intros H. unfold parse. simpl. rewrite (cut_first _ _ H). reflexivity.
Qed.

(** C3: a provider identifier without the separator survives [issue]
    followed by [parse], whatever the random token is; the frontend's
    [state.split(":", 2)] recovers it as well. *)
Theorem issue_parse_roundtrip (provider_id token : string) :
  has_sep provider_id = false ->
  parse (issue provider_id token) = ret (provider_id, token)
  /\ extractProviderId (issue provider_id token) = Some provider_id.
Proof.
  intros H. unfold issue. split.
  - apply parse_first, H.
  - unfold extractProviderId, js_split.
    rewrite (js_split_all_first _ _ H). reflexivity.
Qed.

Lemma issue_parse_roundtrip_witness :
  has_sep "keycloak" = false
  /\ parse (issue "keycloak" "Zm9v:YmFy") = ret ("keycloak", "Zm9v:YmFy")
  /\ extractProviderId (issue "keycloak" "Zm9v:YmFy") = Some "keycloak".
Proof.
  split; [reflexivity|].
  apply (issue_parse_roundtrip "keycloak" "Zm9v:YmFy"). reflexivity.
Defined.

(** C4: [parse] cuts at the first separator, the text before it is the
    provider identifier and the whole remainder, separators included, is the
    random part; a string without a separator fails with [MalformedState].
    Every string falls under one of the two cases. *)
Theorem parse_first_separator (state : string) :
  (has_sep state = false /\ parse state = raise MalformedState)
  \/ (exists p r, state = p ++ String SEP r /\ has_sep p = false
                  /\ parse state = ret (p, r)).
Proof.
  destruct (has_sep state) eqn:E.
  - right. destruct (has_sep_decompose _ E) as (p & r & -> & Hp).
    exists p, r. repeat split; [exact Hp | apply parse_first, Hp].
  - left. split; [reflexivity | apply parse_absent, E].
Qed.

End StateCodecFacts.

(** ** Callback *)

Section CallbackFacts.
Import StateCodec Callback.

Variable Credential : Type.
Variable exchange_and_login : string -> string -> result Credential.

Lemma truthy_with_sep (p r : string) : truthy (p ++ String SEP r) = true.
Proof.
  apply truthy_true. destruct p; discriminate.
Qed.

(** C1: a state that carries a separator and whose embedded provider
    identifier is not the route's makes the callback fail with
    [ProviderMismatch], whatever the code is and whatever the later steps
    would answer. *)
Theorem handleCallback_provider_mismatch
    (provider_id code p r : string) :
  has_sep p = false ->
  p <> provider_id ->
  handleCallback Credential exchange_and_login provider_id code
    (Some (p ++ String SEP r))
  = raise ProviderMismatch.
Proof.
  intros Hp Hne. unfold handleCallback, validate_state.
  rewrite truthy_with_sep, (parse_first _ _ Hp). simpl.
  apply String.eqb_neq in Hne. rewrite Hne. reflexivity.
Qed.

End CallbackFacts.

Lemma handleCallback_provider_mismatch_witness :
  StateCodec.has_sep "evil" = false
  /\ "evil" <> "corp"
  /\ Callback.handleCallback string (fun _ _ => ret "session") "corp" "good-code"
       (Some (StateCodec.issue "evil" "x:y"))
     = raise ProviderMismatch.
Proof.
  split; [reflexivity|]. split; [discriminate|].
  apply (handleCallback_provider_mismatch string (fun _ _ => ret "session")
           "corp" "good-code" "evil" "x:y"); [reflexivity | discriminate].
Defined.

(** ** Claim mapping *)

Section ClaimMappingFacts.
Import ClaimMapping.

Variable get_oidc_provider : string -> option Settings.provider.

(** The username is read under the name the provider's mapping gives, and
    under ["preferred_username"] when the mapping has no [username] entry. *)
Lemma extract_user_data_username (pid : string) (provider : Settings.provider)
    (claims : gmap string string) (claim value : string) :
  get_oidc_provider pid = Some provider ->
  username_claim_of (default ∅ (Settings.claim_mappings provider)) = claim ->
  claims !! claim = Some value ->
  value <> "" ->
  exists d, extract_user_data get_oidc_provider pid claims = ret d
            /\ username d = value /\ provider_id d = pid.
Proof.
  intros Hp Hc Hv Hne. unfold extract_user_data.
  rewrite Hp. cbn zeta. rewrite Hc, Hv. cbn [truthy_opt].
  apply truthy_true in Hne. rewrite Hne. cbn [negb].
  eexists. split; [reflexivity|]. split; reflexivity.
Qed.

Lemma username_claim_default (mappings : gmap string string) :
  mappings !! "username" = None ->
  username_claim_of mappings = "preferred_username".
Proof. intros H. unfold username_claim_of. rewrite H. reflexivity. Qed.

Lemma username_claim_mapped (mappings : gmap string string) (claim : string) :
  mappings !! "username" = Some claim ->
  username_claim_of mappings = claim.
Proof. intros H. unfold username_claim_of. rewrite H. reflexivity. Qed.

(** C5: each provider's own mapping decides which claim is the username,
    and the default claim name stands in for an absent entry: with
    [username] mapped to [sub] for "alpha" and no [username] entry for
    "beta", the claims [{sub: "u1", preferred_username: "u2"}] give the
    username "u1" for alpha and "u2" for beta. *)
Theorem claim_mapping_per_provider
    (alpha beta : Settings.provider) (m : gmap string string) :
  get_oidc_provider "alpha" = Some alpha ->
  Settings.claim_mappings alpha = Some m ->
  m !! "username" = Some "sub" ->
  get_oidc_provider "beta" = Some beta ->
  default ∅ (Settings.claim_mappings beta) !! "username" = None ->
  (exists d, extract_user_data get_oidc_provider "alpha" raw_claims = ret d
             /\ username d = "u1" /\ provider_id d = "alpha")
  /\ (exists d, extract_user_data get_oidc_provider "beta" raw_claims = ret d
                /\ username d = "u2" /\ provider_id d = "beta").
Proof.
  intros Ha Hm Hsub Hb Hnone. split.
  - apply (extract_user_data_username "alpha" alpha raw_claims "sub" "u1");
      [exact Ha | | reflexivity | discriminate].
    rewrite Hm. apply username_claim_mapped, Hsub.
  - apply (extract_user_data_username "beta" beta raw_claims
             "preferred_username" "u2");
      [exact Hb | | reflexivity | discriminate].
    apply username_claim_default, Hnone.
Qed.

End ClaimMappingFacts.

Lemma claim_mapping_per_provider_witness :
  (exists d, ClaimMapping.extract_user_data two_providers "alpha" raw_claims
             = ret d
             /\ ClaimMapping.username d = "u1"
             /\ ClaimMapping.provider_id d = "alpha")
  /\ (exists d, ClaimMapping.extract_user_data two_providers "beta" raw_claims
                = ret d
                /\ ClaimMapping.username d = "u2"
                /\ ClaimMapping.provider_id d = "beta").
Proof.
  apply (claim_mapping_per_provider two_providers alpha_entry beta_entry
           {[ "username" := "sub" ]}); reflexivity.
Defined.

(** ** SSL context *)

Section TrustFacts.
Import Trust.

Variable get_oidc_provider : string -> option Settings.provider.
Variable package_root : string.
Variable str_Path : string -> string.
Variable joinpath : string -> string -> string.
Variable exists_file : string -> bool.
Variable load_verify_locations : string -> result SSLContext.

Abbreviation resolved := (resolve package_root str_Path joinpath).


End TrustFacts.



(** ** Provider registry *)

Section RegistryFacts.
Import Registry.

#[local] Instance before_total : Total before.
Proof.
  intros c1 c2. unfold before.
  destruct (Z.lt_trichotomy (display_order c1) (display_order c2))
    as [H | [H | H]]; [left; left; exact H | | right; left; exact H].
  destruct (total String.le (id c1) (id c2)) as [Hle | Hle].
  - left. right. split; [exact H | exact Hle].
  - right. right. split; [symmetry; exact H | exact Hle].
Qed.

#[local] Instance before_trans : Transitive before.
Proof.
  intros c1 c2 c3 [H12 | [E12 H12]] [H23 | [E23 H23]]; unfold before.
  - left. lia.
  - left. lia.
  - left. lia.
  - right. split; [congruence | by trans (id c2)].
Qed.

Lemma validate_ok (i : string) (p : Settings.provider) (c : ProviderConfig) :
  validate i p = inr c ->
  c = apply_defaults i p /\ forall f, missing f p = false.
Proof.
  unfold validate. destruct (List.find _ _) as [f|] eqn:E; [discriminate|].
  intros [= <-]. split; [reflexivity|].
  intros f. apply (List.find_none _ _ E f). destruct f; simpl; tauto.
Qed.

Lemma validate_error (i : string) (p : Settings.provider) (e : flow_error) :
  validate i p = inl e ->
  exists f, e = ConfigError i (key f) /\ missing f p = true.
Proof.
  unfold validate. destruct (List.find _ _) as [f|] eqn:E; [|discriminate].
  intros [= <-]. exists f. split; [reflexivity|].
  apply List.find_some in E. apply E.
Qed.

Lemma validate_missing (i : string) (p : Settings.provider) (f : mandatory) :
  missing f p = true -> exists e, validate i p = inl e.
Proof.
  intros H. destruct (validate i p) as [e|c] eqn:E; [eauto|].
  apply validate_ok in E as [_ E]. rewrite E in H. discriminate.
Qed.

Lemma validate_well_formed (i : string) (p : Settings.provider) :
  (forall f, missing f p = false) -> validate i p = inr (apply_defaults i p).
Proof.
  intros H. destruct (validate i p) as [e|c] eqn:E.
  - apply validate_error in E as (f & _ & E). rewrite H in E. discriminate.
  - apply validate_ok in E as [-> _]. reflexivity.
Qed.

Lemma providers_lookup (source : gmap string Settings.provider)
    (i : string) (c : ProviderConfig) :
  providers (loadProviders source) !! i = Some c <->
  exists p, source !! i = Some p /\ validate i p = inr c.
Proof.
  unfold loadProviders; cbn [providers]. rewrite map_lookup_imap.
  destruct (source !! i) as [p|] eqn:E; cbn.
  - destruct (validate i p) as [e|c'] eqn:V; split.
    + discriminate.
    + intros (p' & [= <-] & V'). congruence.
    + intros [= <-]. eauto.
    + intros (p' & [= <-] & V'). congruence.
  - split; [discriminate | intros (p' & [=] & _)].
Qed.

Lemma errors_lookup (source : gmap string Settings.provider)
    (i : string) (e : flow_error) :
  errors (loadProviders source) !! i = Some e <->
  exists p, source !! i = Some p /\ validate i p = inl e.
Proof.
  unfold loadProviders; cbn [errors]. rewrite map_lookup_imap.
  destruct (source !! i) as [p|] eqn:E; cbn.
  - destruct (validate i p) as [e'|c] eqn:V; split.
    + intros [= <-]. eauto.
    + intros (p' & [= <-] & V'). congruence.
    + discriminate.
    + intros (p' & [= <-] & V'). congruence.
  - split; [discriminate | intros (p' & [=] & _)].
Qed.

(** A loaded provider is filed under its own identifier. *)
Lemma providers_id (source : gmap string Settings.provider)
    (i : string) (c : ProviderConfig) :
  providers (loadProviders source) !! i = Some c -> id c = i.
Proof.
  intros (p & _ & V)%providers_lookup.
  apply validate_ok in V as [-> _]. reflexivity.
Qed.

(** What [listEnabled] holds, for a provider set filed by identifier. *)
Lemma elem_of_listEnabled (reg : gmap string ProviderConfig)
    (c : ProviderConfig) :
  c ∈ listEnabled reg <->
  (exists i, reg !! i = Some c) /\ enabled c = true.
Proof.
  unfold listEnabled. rewrite merge_sort_Permutation.
  rewrite list_elem_of_In, List.filter_In, <- list_elem_of_In.
  rewrite list_elem_of_fmap. split.
  - intros [([i c'] & -> & Hin) He]. split; [|exact He].
    exists i. apply elem_of_map_to_list in Hin. exact Hin.
  - intros [(i & Hi) He]. split; [|exact He].
    exists (i, c). split; [reflexivity|]. apply elem_of_map_to_list, Hi.
Qed.

Lemma NoDup_fmap_filter {A B} (f : A -> B) (g : A -> bool) (l : list A) :
  NoDup (f <$> l) -> NoDup (f <$> List.filter g l).
Proof.
  induction l as [|x l IH]; cbn; [auto|].
  rewrite NoDup_cons. intros [Hx Hl].
  destruct (g x); cbn; [|auto].
  apply NoDup_cons. split; [|auto].
  intros Hin. apply Hx.
  apply list_elem_of_fmap in Hin as (y & -> & Hy).
  apply list_elem_of_fmap. exists y. split; [reflexivity|].
  apply list_elem_of_In. apply list_elem_of_In, List.filter_In in Hy. tauto.
Qed.

Lemma NoDup_listEnabled_ids (reg : gmap string ProviderConfig) :
  (forall i c, reg !! i = Some c -> id c = i) ->
  NoDup (id <$> listEnabled reg).
Proof.
  intros Hid. unfold listEnabled. rewrite merge_sort_Permutation.
  apply NoDup_fmap_filter.
  rewrite <- list_fmap_compose.
  rewrite (list_fmap_ext (id ∘ snd) fst (map_to_list reg)).
  - apply NoDup_fst_map_to_list.
  - intros k [i c] Hk. cbn. apply Hid.
    apply elem_of_map_to_list. apply list_elem_of_lookup. eauto.
Qed.

(** C8: [listEnabled] returns exactly the enabled providers of the loaded
    set, each once, sorted by [display_order] and then by identifier; no
    disabled provider is in it. *)
Theorem listEnabled_enabled_sorted (source : gmap string Settings.provider) :
  let reg := providers (loadProviders source) in
  (forall c, c ∈ listEnabled reg <->
             reg !! id c = Some c /\ enabled c = true)
  /\ (forall c, c ∈ listEnabled reg -> enabled c <> false)
  /\ NoDup (id <$> listEnabled reg)
  /\ StronglySorted before (listEnabled reg).
Proof.
  intros reg.
  assert (Hid : forall i c, reg !! i = Some c -> id c = i)
    by (intros i c; apply providers_id).
  split; [|split; [|split]].
  - intros c. rewrite elem_of_listEnabled. split.
    + intros [(i & Hi) He]. split; [|exact He].
      rewrite (Hid _ _ Hi). exact Hi.
    + intros [Hc He]. split; [eauto | exact He].
  - intros c [_ He]%elem_of_listEnabled. rewrite He. discriminate.
  - apply NoDup_listEnabled_ids, Hid.
  - apply StronglySorted_merge_sort; apply _.
Qed.

(** C2: a provider entry with a mandatory field empty or absent is
    rejected when the source is loaded: the error recorded for it names
    the provider and a mandatory field that is missing, the provider is in
    neither the loaded set nor [listEnabled] whatever its [enabled] flag
    says, every well-formed entry of the source is still loaded, and the
    mandatory fields of whatever is loaded are those of its own entry. *)
Theorem loadProviders_rejects_missing_field
    (source : gmap string Settings.provider) (i : string)
    (p : Settings.provider) (f : mandatory) :
  source !! i = Some p ->
  missing f p = true ->
  let l := loadProviders source in
  (exists g, errors l !! i = Some (ConfigError i (key g))
             /\ missing g p = true
             /\ detail (ConfigError i (key g))
                = "Provider '" ++ i ++ "' missing required '" ++ key g ++ "'")
  /\ providers l !! i = None
  /\ (forall c, c ∈ listEnabled (providers l) -> id c <> i)
  /\ (forall j q, source !! j = Some q -> (forall g, missing g q = false) ->
                  providers l !! j = Some (apply_defaults j q)
                  /\ errors l !! j = None)
  /\ (forall j c, providers l !! j = Some c ->
                  exists q, source !! j = Some q
                            /\ forall g, field g q = Some (loaded_field g c)
                                         /\ loaded_field g c <> "").
Proof.
  intros Hp Hf l.
  destruct (validate_missing i p f Hf) as [e He].
  destruct (validate_error _ _ _ He) as (g & -> & Hg).
  assert (Hnone : providers l !! i = None).
  { destruct (providers l !! i) as [c|] eqn:E; [|reflexivity].
    apply providers_lookup in E as (p' & Hp' & V). congruence. }
  split; [|split; [|split; [|split]]].
  - exists g. split; [|split; [exact Hg | reflexivity]].
    apply errors_lookup. eauto.
  - exact Hnone.
  - intros c [(j & Hj) _]%elem_of_listEnabled Hc.
    pose proof (providers_id _ _ _ Hj) as E. congruence.
  - intros j q Hq Hwf. pose proof (validate_well_formed j q Hwf) as V. split.
    + apply providers_lookup. eauto.
    + destruct (errors l !! j) as [e|] eqn:E; [|reflexivity].
      apply errors_lookup in E as (q' & Hq' & V'). congruence.
  - intros j c (q & Hq & V)%providers_lookup. exists q. split; [exact Hq|].
    apply validate_ok in V as [-> Hwf]. intros h. specialize (Hwf h).
    unfold missing in Hwf. apply negb_false_iff in Hwf.
    destruct h; cbn in *;
      match goal with
      | H : truthy_opt ?o = true |- _ =>
          destruct o as [v|]; cbn in *; [|discriminate];
          split; [reflexivity | apply truthy_true, H]
      end.
Qed.

End RegistryFacts.

Lemma loadProviders_rejects_missing_field_witness :
  Registry.missing Registry.ClientSecret broken_entry = true
  /\ Settings.enabled broken_entry = Some true
  /\ Registry.errors (Registry.loadProviders yaml_source) !! "broken"
     = Some (Registry.ConfigError "broken" "client_secret")
  /\ Registry.providers (Registry.loadProviders yaml_source) !! "broken" = None
  /\ (forall c,
        c ∈ Registry.listEnabled
              (Registry.providers (Registry.loadProviders yaml_source)) ->
        Registry.id c <> "broken")
  /\ Registry.providers (Registry.loadProviders yaml_source) !! "alpha"
     = Some (Registry.apply_defaults "alpha" alpha_entry).
Proof.
  destruct (loadProviders_rejects_missing_field yaml_source "broken"
              broken_entry Registry.ClientSecret)
    as (_ & Hnone & Hlist & Hothers & _); [reflexivity | reflexivity |].
  split; [reflexivity|]. split; [reflexivity|]. split; [reflexivity|].
  split; [exact Hnone|]. split; [exact Hlist|].
  apply (Hothers "alpha" alpha_entry); [reflexivity|].
  intros []; reflexivity.
Defined.

(** ** User provisioning bridge *)

Section ProvisioningFacts.
Import Provisioning.

Variable find_user :
  gmap string LocalUser -> string -> string -> option LocalUser.

(** C7: with [auto_provision] off and no local user matching the mapped
    identity, [resolveUser] fails with [ProvisioningDisabled] and hands the
    user store back as it received it. *)
Theorem resolveUser_provisioning_disabled
    (reg : gmap string Registry.ProviderConfig)
    (store : gmap string LocalUser) (providerId : string)
    (cfg : Registry.ProviderConfig) (mi : MappedIdentity) :
  reg !! providerId = Some cfg ->
  Registry.auto_provision cfg = false ->
  find_user store providerId (Registry.username_prefix cfg ++ username mi)
  = None ->
  resolveUser find_user reg store providerId mi
  = (inl Registry.ProvisioningDisabled, store).
Proof.
  intros Hcfg Hauto Hfind. unfold resolveUser.
  rewrite Hcfg. cbn zeta. rewrite Hfind, Hauto. reflexivity.
Qed.

End ProvisioningFacts.

Lemma resolveUser_provisioning_disabled_witness :
  Provisioning.resolveUser Provisioning.by_username
    (Registry.providers (Registry.loadProviders yaml_source))
    one_user "alpha" jdoe
  = (inl Registry.ProvisioningDisabled, one_user).
Proof.
  apply (resolveUser_provisioning_disabled Provisioning.by_username
           (Registry.providers (Registry.loadProviders yaml_source))
           one_user "alpha" (Registry.apply_defaults "alpha" alpha_entry) jdoe);
    reflexivity.
Defined.

(** ** Auth store *)

Section AuthStoreFacts.
Import AuthStore.

Variable JSON_parse : string -> option json.
Variable JSON_stringify : json -> string.

Abbreviation login := (login JSON_stringify).
Abbreviation setUser := (setUser JSON_stringify).
Abbreviation hydrate := (hydrate JSON_parse).
Abbreviation run := (run JSON_parse JSON_stringify).

Lemma truthy_json_not_null (v : json) : truthy_json v = true -> v <> JNull.
Proof. intros H ->. discriminate. Qed.

Lemma consistent_cleared : consistent cleared.
Proof.
  split; cbn.
  - split; [discriminate | intros H; contradiction H; reflexivity].
  - discriminate.
Qed.

Lemma consistent_authenticated (t : string) (u : json) :
  u <> JNull ->
  consistent {| token := Some t; user := u; isAuthenticated := true |}.
Proof.
  intros Hu. split; cbn.
  - split; [discriminate | reflexivity].
  - intros _. exact Hu.
Qed.

Lemma removeCookies_no_auth_cookies (w : browser) :
  no_auth_cookies (removeCookies w).
Proof.
  unfold no_auth_cookies, removeCookies, Cookies_remove, Cookies_get.
  destruct (has_window w) eqn:E; cbn; rewrite ?E; cbn.
  - split; [|apply lookup_delete_eq].
    rewrite lookup_delete_ne by discriminate. apply lookup_delete_eq.
  - split; reflexivity.
Qed.

Lemma login_state (t : string) (u : json) (ws : browser * AuthState) :
  (login t u ws).2 = {| token := Some t; user := u; isAuthenticated := true |}.
Proof. reflexivity. Qed.

Lemma logout_state (ws : browser * AuthState) :
  (logout ws).2 = cleared /\ no_auth_cookies (logout ws).1.
Proof. split; [reflexivity | apply removeCookies_no_auth_cookies]. Qed.

Lemma setUser_consistent (u : json) (ws : browser * AuthState) :
  u <> JNull -> consistent ws.2 -> consistent (setUser u ws).2.
Proof.
  intros Hu [Htok _]. split; cbn; [exact Htok | intros _; exact Hu].
Qed.

(** The two outcomes of [hydrate]. *)
Lemma hydrate_cases (ws : browser * AuthState) :
  (exists t c u,
      Cookies_get "cockpit_auth_token" ws.1 = Some t
      /\ Cookies_get "cockpit_user_info" ws.1 = Some c
      /\ JSON_parse c = Some u
      /\ t <> "" /\ u <> JNull
      /\ hydrate ws
         = (ws.1, {| token := Some t; user := u; isAuthenticated := true |}))
  \/ (hydrate ws = (removeCookies ws.1, cleared)
      /\ no_auth_cookies (hydrate ws).1).
Proof.
  unfold hydrate.
  destruct (truthy_opt (getCookieToken ws.1)
            && truthy_json (getCookieUser JSON_parse ws.1)) eqn:E.
  - left. apply andb_true_iff in E as [Et Eu].
    pose proof (truthy_json_not_null _ Eu) as Hu.
    unfold getCookieToken in Et |- *. unfold getCookieUser in Eu, Hu |- *.
    destruct (has_window ws.1); cbn in *; [|discriminate].
    destruct (Cookies_get "cockpit_auth_token" ws.1) as [t|];
      cbn in *; [|discriminate].
    destruct (truthy t) eqn:Tt; cbn in *; [|discriminate].
    destruct (Cookies_get "cockpit_user_info" ws.1) as [c|];
      cbn in *; [|discriminate].
    destruct (truthy c); cbn in *; [|discriminate].
    destruct (JSON_parse c) as [u|] eqn:P; cbn in *; [|discriminate].
    exists t, c, u. repeat split; try reflexivity; try assumption.
    apply truthy_true, Tt.
  - right. split; [reflexivity | apply removeCookies_no_auth_cookies].
Qed.

(** A non-empty token cookie and a user cookie that parses to a truthy
    value are taken over as they are. *)
Lemma hydrate_sets (ws : browser * AuthState) (t c : string) (u : json) :
  Cookies_get "cockpit_auth_token" ws.1 = Some t -> t <> "" ->
  Cookies_get "cockpit_user_info" ws.1 = Some c -> c <> "" ->
  JSON_parse c = Some u -> truthy_json u = true ->
  hydrate ws
  = (ws.1, {| token := Some t; user := u; isAuthenticated := true |}).
Proof.
  intros Ht Hne Hc Hce Hp Hu.
  apply truthy_true in Hne. apply truthy_true in Hce.
  assert (Hw : has_window ws.1 = true).
  { unfold Cookies_get in Ht. destruct (has_window ws.1);
      [reflexivity | discriminate]. }
  unfold hydrate, getCookieToken, getCookieUser.
  rewrite Hw, Ht, Hc. cbn [negb truthy_opt].
  rewrite Hne, Hce. cbn [negb truthy_opt]. rewrite Hp, Hne, Hu.
  reflexivity.
Qed.

(** Without the token cookie, without the user cookie, or with a user
    cookie that does not parse, [hydrate] cleans up. *)
Lemma hydrate_otherwise (ws : browser * AuthState) :
  Cookies_get "cockpit_auth_token" ws.1 = None
  \/ Cookies_get "cockpit_user_info" ws.1 = None
  \/ (exists c, Cookies_get "cockpit_user_info" ws.1 = Some c
                /\ JSON_parse c = None) ->
  hydrate ws = (removeCookies ws.1, cleared).
Proof.
  intros H. destruct (hydrate_cases ws)
    as [(t & c & u & Ht & Hc & Hu & _) | [Hh _]]; [|exact Hh].
  destruct H as [H | [H | (c' & H & Hp)]]; congruence.
Qed.

Lemma hydrate_consistent (ws : browser * AuthState) : consistent (hydrate ws).2.
Proof.
  destruct (hydrate_cases ws)
    as [(t & c & u & _ & _ & _ & _ & Hu & ->) | [-> _]]; cbn [snd].
  - apply consistent_authenticated, Hu.
  - apply consistent_cleared.
Qed.

Lemma step_consistent (a : action) (ws : browser * AuthState) :
  well_typed a -> consistent ws.2 ->
  consistent (step JSON_parse JSON_stringify ws a).2.
Proof.
  destruct a as [t u| |u|]; cbn [step well_typed]; intros Ha Hws.
  - rewrite login_state. apply consistent_authenticated, Ha.
  - apply consistent_cleared.
  - apply setUser_consistent; assumption.
  - apply hydrate_consistent.
Qed.

Lemma run_consistent (acts : list action) (ws : browser * AuthState) :
  Forall well_typed acts -> consistent ws.2 -> consistent (run ws acts).2.
Proof.
  revert ws. induction acts as [|a acts IH]; intros ws Hacts Hws; cbn.
  - exact Hws.
  - apply Forall_cons in Hacts as [Ha Hacts].
    apply IH; [exact Hacts | apply step_consistent; assumption].
Qed.

(** C9: the store starts consistent ([isAuthenticated] exactly when [token]
    is set, and then [user] is set too) and every run of its operations
    keeps it so. [login] sets the three fields together; [logout] clears
    them and removes both auth cookies; [hydrate] sets them only from a
    token cookie and a user cookie that parses, and in every other case
    removes both cookies and resets the state. It does set them when the
    token cookie is not empty and the user cookie parses to a truthy
    value. *)
Theorem auth_store_consistent :
  consistent initial
  /\ (forall acts, Forall well_typed acts ->
                   forall w, consistent (run (w, initial) acts).2)
  /\ (forall t u ws,
        (login t u ws).2
        = {| token := Some t; user := u; isAuthenticated := true |})
  /\ (forall ws, (logout ws).2 = cleared /\ no_auth_cookies (logout ws).1)
  /\ (forall ws,
        (exists t c u,
            Cookies_get "cockpit_auth_token" ws.1 = Some t
            /\ Cookies_get "cockpit_user_info" ws.1 = Some c
            /\ JSON_parse c = Some u
            /\ t <> "" /\ u <> JNull
            /\ hydrate ws
               = (ws.1, {| token := Some t; user := u;
                           isAuthenticated := true |}))
        \/ (hydrate ws = (removeCookies ws.1, cleared)
            /\ no_auth_cookies (hydrate ws).1))
  /\ (forall ws,
        Cookies_get "cockpit_auth_token" ws.1 = None
        \/ Cookies_get "cockpit_user_info" ws.1 = None
        \/ (exists c, Cookies_get "cockpit_user_info" ws.1 = Some c
                      /\ JSON_parse c = None) ->
        hydrate ws = (removeCookies ws.1, cleared))
  /\ (forall ws t c u,
        Cookies_get "cockpit_auth_token" ws.1 = Some t -> t <> "" ->
        Cookies_get "cockpit_user_info" ws.1 = Some c -> c <> "" ->
        JSON_parse c = Some u -> truthy_json u = true ->
        hydrate ws
        = (ws.1, {| token := Some t; user := u; isAuthenticated := true |})).
Proof.
  split; [apply consistent_cleared|].
  split; [intros acts Hacts w; apply run_consistent;
          [exact Hacts | apply consistent_cleared]|].
  split; [intros; apply login_state|].
  split; [apply logout_state|].
  split; [apply hydrate_cases|].
  split; [apply hydrate_otherwise | apply hydrate_sets].
Qed.

End AuthStoreFacts.

(** ** Role permission masks *)

Section PermissionsFacts.
Import Permissions.

Lemma land_granted_by (a b : Z) : Z.land a b = a -> granted_by a b.
Proof.
  intros H i Hi. rewrite <- H, Z.land_spec in Hi.
  apply andb_true_iff in Hi. apply Hi.
Qed.

(** C10: the role masks are nested: viewer AND user is viewer, user AND
    admin is user, so each bit of the viewer role is a bit of the user role
    and each bit of the user role is a bit of the admin role. *)
Theorem role_masks_nested :
  ROLE_PERMISSIONS !! "viewer"%string = Some PERMISSIONS_VIEWER
  /\ ROLE_PERMISSIONS !! "user"%string = Some PERMISSIONS_USER
  /\ ROLE_PERMISSIONS !! "admin"%string = Some PERMISSIONS_ADMIN
  /\ PERMISSIONS_VIEWER = PERMISSION_READ
  /\ PERMISSIONS_USER = Z.lor PERMISSION_READ PERMISSION_WRITE
  /\ Z.land PERMISSIONS_VIEWER PERMISSIONS_USER = PERMISSIONS_VIEWER
  /\ Z.land PERMISSIONS_USER PERMISSIONS_ADMIN = PERMISSIONS_USER
  /\ granted_by PERMISSIONS_VIEWER PERMISSIONS_USER
  /\ granted_by PERMISSIONS_USER PERMISSIONS_ADMIN.
Proof.
  repeat split; try reflexivity; apply land_granted_by; reflexivity.
Qed.

End PermissionsFacts.

(** ** Worked examples *)

Example parse_keeps_later_separators :
  StateCodec.parse "corp:ab:cd" = ret ("corp", "ab:cd").
Proof. reflexivity. Qed.

Example parse_without_separator :
  StateCodec.parse "corp" = raise MalformedState.
Proof. reflexivity. Qed.

Example frontend_split_limit :
  StateCodec.js_split StateCodec.SEP 2 "corp:ab:cd" = ["corp"; "ab"].
Proof. reflexivity. Qed.

(** [if callback_data.state:] lets an empty state through unchecked. *)
Example empty_state_is_not_checked :
  Callback.handleCallback string (fun _ _ => ret "session") "corp" "code"
    (Some "")
  = ret "session".
Proof. reflexivity. Qed.

Example listEnabled_yaml_source :
  Registry.id
    <$> Registry.listEnabled
          (Registry.providers (Registry.loadProviders yaml_source))
  = ["beta"; "alpha"].
Proof. vm_compute. reflexivity. Qed.

(** [auto_provision] defaults to true: "beta" with prefix ["sso_"] creates
    the local user ["sso_jdoe"]. *)
Example resolveUser_prefix :
  (Provisioning.resolveUser Provisioning.by_username
     (Registry.providers (Registry.loadProviders yaml_source))
     one_user "beta" jdoe).2 !! "sso_jdoe"
  = Some {| Provisioning.local_username := "sso_jdoe";
            Provisioning.local_email := None;
            Provisioning.local_display_name := "jdoe";
            Provisioning.role := "user";
            Provisioning.origin := "beta" |}.
Proof. vm_compute. reflexivity. Qed.

(** * Further properties of the modelled code *)

(** ** State token codec and callback check *)

Section StateCodecMore.
Import StateCodec Callback.

Lemma js_split_all_absent (s : string) :
  has_sep s = false -> js_split_all SEP s = [s].
Proof.
  induction s as [|c s IH]; simpl; [reflexivity|].
  destruct (Ascii.eqb c SEP); [discriminate|].
  intros H. rewrite (IH H). reflexivity.
Qed.

(** X1: what [parse] returns is a decomposition of its input: gluing the
    two parts with the separator gives the state back, and the first part
    has no separator. *)
Theorem parse_issue_inverse (state p r : string) :
  parse state = ret (p, r) ->
  state = issue p r /\ has_sep p = false.
Proof.
  intros H. destruct (has_sep state) eqn:E.
  - destruct (has_sep_decompose _ E) as (p' & r' & -> & Hp').
    rewrite (parse_first _ _ Hp') in H. injection H as <- <-.
    split; [reflexivity | exact Hp'].
  - rewrite (parse_absent _ E) in H. discriminate.
Qed.

Lemma parse_issue_inverse_witness :
  "corp:ab:cd" = issue "corp" "ab:cd" /\ has_sep "corp" = false.
Proof.
  apply (parse_issue_inverse "corp:ab:cd" "corp" "ab:cd"). reflexivity.
Defined.

(** X2: the frontend's [state.split(":", 2)] never fails: it always yields
    a first piece without separator, which is the identifier the backend's
    [parse] finds whenever that one succeeds, and the whole state when the
    state has no separator (where the backend raises). *)
Theorem extractProviderId_agrees (state : string) :
  exists q, extractProviderId state = Some q
            /\ has_sep q = false
            /\ (forall p r, parse state = ret (p, r) -> q = p)
            /\ (has_sep state = false -> q = state).
Proof.
  destruct (has_sep state) eqn:E.
  - destruct (has_sep_decompose _ E) as (p' & r' & -> & Hp').
    exists p'. unfold extractProviderId, js_split.
    rewrite (js_split_all_first _ _ Hp').
    split; [reflexivity|]. split; [exact Hp'|]. split; [|discriminate].
    intros p r H. rewrite (parse_first _ _ Hp') in H.
    injection H as <- _. reflexivity.
  - exists state. unfold extractProviderId, js_split.
    rewrite (js_split_all_absent _ E).
    split; [reflexivity|]. split; [exact E|]. split; [|reflexivity].
    intros p r H. rewrite (parse_absent _ E) in H. discriminate.
Qed.

(** X3: the callback's state check lets a request through in exactly two
    cases: the state is absent or empty (then nothing is checked), or it is
    the route's own provider identifier, free of separators, followed by a
    separator. *)
Theorem validate_state_passes (provider_id : string) (state : option string) :
  validate_state provider_id state = ret tt <->
  truthy_opt state = false
  \/ (has_sep provider_id = false
      /\ exists r, state = Some (issue provider_id r)).
Proof.
  unfold validate_state. destruct state as [s|]; cbn [truthy_opt].
  2: { split; [left; reflexivity | reflexivity]. }
  destruct (truthy s) eqn:T.
  2: { split; [left; reflexivity | reflexivity]. }
  destruct (has_sep s) eqn:E.
  - destruct (has_sep_decompose _ E) as (p & r & -> & Hp).
    rewrite (parse_first _ _ Hp). cbn [bind ret].
    destruct (String.eqb p provider_id) eqn:Q.
    + apply String.eqb_eq in Q. subst p. split; [|reflexivity].
      intros _. right. split; [exact Hp | exists r; reflexivity].
    + split; [discriminate|].
      intros [H | [Hpid [r' H]]]; [discriminate|].
      apply String.eqb_neq in Q. exfalso. apply Q.
      injection H as H. unfold issue in H.
      assert (Hcut : cut SEP (p ++ String SEP r)
                     = cut SEP (provider_id ++ String SEP r'))
        by (rewrite H; reflexivity).
      rewrite (cut_first _ _ Hp), (cut_first _ _ Hpid) in Hcut. congruence.
  - rewrite (parse_absent _ E). cbn [bind raise].
    split; [discriminate|].
    intros [H | [Hpid [r H]]]; [discriminate|].
    injection H as ->. unfold issue in E.
    rewrite has_sep_app in E. cbn in E.
    rewrite orb_true_r in E. discriminate.
Qed.

(** X4: a route whose provider identifier contains the separator cannot
    get any non-empty state past the check: the state is either malformed
    or attributed to another provider. *)
Theorem separator_in_route_always_rejected
    (provider_id state : string) :
  has_sep provider_id = true ->
  state <> "" ->
  validate_state provider_id (Some state) = raise MalformedState
  \/ validate_state provider_id (Some state) = raise ProviderMismatch.
Proof.
  intros Hpid Hne. apply truthy_true in Hne. unfold validate_state.
  rewrite Hne. destruct (has_sep state) eqn:E.
  - right. destruct (has_sep_decompose _ E) as (p & r & -> & Hp).
    rewrite (parse_first _ _ Hp). cbn [bind ret].
    destruct (String.eqb p provider_id) eqn:Q; [|reflexivity].
    apply String.eqb_eq in Q. congruence.
  - left. rewrite (parse_absent _ E). reflexivity.
Qed.

End StateCodecMore.

Lemma separator_in_route_always_rejected_witness :
  Callback.validate_state "corp:eu" (Some (StateCodec.issue "corp:eu" "tok"))
  = raise MalformedState
  \/ Callback.validate_state "corp:eu" (Some (StateCodec.issue "corp:eu" "tok"))
     = raise ProviderMismatch.
Proof.
  apply (separator_in_route_always_rejected "corp:eu"
           (StateCodec.issue "corp:eu" "tok")); [reflexivity | discriminate].
Defined.

(** ** Claim mapping *)

Section ClaimMappingMore.
Import ClaimMapping.

Variable get_oidc_provider : string -> option Settings.provider.


End ClaimMappingMore.


(** ** SSL context cache *)

Section TrustMore.
Import Trust.

Variable get_oidc_provider : string -> option Settings.provider.
Variable package_root : string.
Variable str_Path : string -> string.
Variable joinpath : string -> string -> string.
Variable exists_file : string -> bool.
Variable load_verify_locations : string -> result SSLContext.

Abbreviation get_ctx :=
  (_get_ssl_context get_oidc_provider package_root str_Path joinpath
     exists_file load_verify_locations).

(** A returned context is in the cache afterwards. *)
Lemma get_ssl_context_returned (self : service) (provider_id : string)
    (ctx : SSLContext) :
  (get_ctx self provider_id).1 = ret (Some ctx) ->
  _ssl_contexts (get_ctx self provider_id).2 !! provider_id = Some ctx.
Proof.
  unfold _get_ssl_context.
  destruct (_ssl_contexts self !! provider_id) as [c|] eqn:Hc.
  { cbn. intros [= <-]. exact Hc. }
  destruct (get_oidc_provider provider_id) as [provider|]; [|discriminate].
  destruct (negb (truthy_opt (Settings.ca_cert_path provider)));
    [discriminate|].
  destruct (negb (exists_file _)); [discriminate|].
  destruct (load_verify_locations _) as [e|ssl_context]; [discriminate|].
  cbn. intros [= <-]. apply lookup_insert_eq.
Qed.

(** X6: one call changes the cache at most at its own provider, and only
    by adding the context it returns: a [None] answer and a failure leave
    the cache as it was (nothing negative is cached), the entries of other
    providers are never touched, and an entry once present is kept. *)
Theorem get_ssl_context_cache_discipline
    (self : service) (provider_id : string) :
  let out := get_ctx self provider_id in
  (forall other, other <> provider_id ->
                 _ssl_contexts out.2 !! other = _ssl_contexts self !! other)
  /\ (forall ctx, _ssl_contexts self !! provider_id = Some ctx ->
                  out = (ret (Some ctx), self))
  /\ (forall ctx, out.1 = ret (Some ctx) ->
                  _ssl_contexts out.2 !! provider_id = Some ctx)
  /\ (out.1 = ret None -> _ssl_contexts out.2 = _ssl_contexts self)
  /\ (raises out.1 -> out.2 = self).
Proof.
  cbn zeta. unfold _get_ssl_context.
  destruct (_ssl_contexts self !! provider_id) as [c|] eqn:Hc.
  { cbn. repeat split; try tauto; try congruence.
    intros ctx [= <-]. exact Hc. }
  destruct (get_oidc_provider provider_id) as [provider|].
  2: { cbn. repeat split; try tauto; try discriminate. }
  destruct (negb (truthy_opt (Settings.ca_cert_path provider))).
  { cbn. repeat split; try tauto; try discriminate. }
  destruct (negb (exists_file _)).
  { cbn. repeat split; try tauto; try discriminate. }
  destruct (load_verify_locations _) as [e|ssl_context].
  { cbn. repeat split; try tauto; try discriminate. }
  cbn. repeat split; try tauto; try discriminate.
  - intros other Hne. apply lookup_insert_ne. congruence.
  - intros ctx [= <-]. apply lookup_insert_eq.
Qed.

(** X7: a context is built once: after a call that returned a context for
    a provider, every later call for that provider returns the same context
    and changes nothing, whatever the configuration and the file system
    have become. *)
Theorem get_ssl_context_reuse
    (self : service) (provider_id : string) (ctx : SSLContext)
    (get_oidc_provider' : string -> option Settings.provider)
    (package_root' : string) (str_Path' : string -> string)
    (joinpath' : string -> string -> string)
    (exists_file' : string -> bool)
    (load_verify_locations' : string -> result SSLContext) :
  (get_ctx self provider_id).1 = ret (Some ctx) ->
  _get_ssl_context get_oidc_provider' package_root' str_Path' joinpath'
    exists_file' load_verify_locations' (get_ctx self provider_id).2
    provider_id
  = (ret (Some ctx), (get_ctx self provider_id).2).
Proof.
  intros H. pose proof (get_ssl_context_returned self provider_id ctx H) as Hhit.
  unfold _get_ssl_context at 1. rewrite Hhit. reflexivity.
Qed.

End TrustMore.

Lemma get_ssl_context_reuse_witness :
  Trust._get_ssl_context no_providers "/elsewhere" normal_str normal_join
    no_files load_any
    (Trust._get_ssl_context corp_only "/app" normal_str normal_join
       ca_present load_any fresh_service "corp").2 "corp"
  = (ret (Some {| Trust.cafile := "/app/certs/ca.cert.pem" |}),
     (Trust._get_ssl_context corp_only "/app" normal_str normal_join
        ca_present load_any fresh_service "corp").2).
Proof.
  apply (get_ssl_context_reuse corp_only "/app" normal_str normal_join
           ca_present load_any fresh_service "corp"
           {| Trust.cafile := "/app/certs/ca.cert.pem" |}
           no_providers "/elsewhere" normal_str normal_join no_files
           load_any).
  reflexivity.
Defined.

(** ** Auth store *)

Section AuthStoreMore.
Import AuthStore.

Variable JSON_parse : string -> option json.
Variable JSON_stringify : json -> string.

Abbreviation login := (login JSON_stringify).
Abbreviation setUser := (setUser JSON_stringify).
Abbreviation hydrate := (hydrate JSON_parse).
Abbreviation run := (run JSON_parse JSON_stringify).
Abbreviation step := (step JSON_parse JSON_stringify).

Lemma Cookies_set_has_window (n v : string) (w : browser) :
  has_window (Cookies_set n v w) = has_window w.
Proof. unfold Cookies_set. destruct (has_window w) eqn:E; [|exact E]. reflexivity. Qed.

Lemma Cookies_get_set (n n' v : string) (w : browser) :
  has_window w = true ->
  Cookies_get n (Cookies_set n' v w)
  = if decide (n' = n) then Some v else Cookies_get n w.
Proof.
  intros Hw. unfold Cookies_get, Cookies_set. rewrite Hw. cbn.
  apply lookup_insert.
Qed.

(** X8: a reload after [login] restores the state [login] set: in a
    browser, with a non-empty token and a user that survives
    [JSON.stringify] and [JSON.parse], [hydrate] after [login] changes
    nothing. *)
Theorem login_hydrate_roundtrip
    (t : string) (u : json) (ws : browser * AuthState) :
  has_window ws.1 = true ->
  t <> "" ->
  truthy_json u = true ->
  JSON_stringify u <> "" ->
  JSON_parse (JSON_stringify u) = Some u ->
  hydrate (login t u ws) = login t u ws.
Proof.
  intros Hw Ht Hu Hs Hp.
  apply (hydrate_sets JSON_parse (login t u ws) t (JSON_stringify u) u);
    try assumption; cbn [fst AuthStore.login];
    unfold setCookieUser, setCookieToken.
  - rewrite Cookies_get_set by (rewrite Cookies_set_has_window; exact Hw).
    rewrite decide_False by discriminate.
    rewrite Cookies_get_set by exact Hw.
    rewrite decide_True by reflexivity. reflexivity.
  - rewrite Cookies_get_set by (rewrite Cookies_set_has_window; exact Hw).
    rewrite decide_True by reflexivity. reflexivity.
Qed.

Lemma removeCookies_has_window (w : browser) :
  has_window (removeCookies w) = has_window w.
Proof.
  unfold removeCookies, Cookies_remove.
  destruct (has_window w) eqn:E; cbn; rewrite ?E; cbn; rewrite ?E; reflexivity.
Qed.

Lemma removeCookies_idemp (w : browser) :
  removeCookies (removeCookies w) = removeCookies w.
Proof.
  unfold removeCookies, Cookies_remove, localStorage_removeItem.
  destruct (has_window w) eqn:E; cbn; rewrite ?E; cbn; rewrite ?E; cbn;
    [|reflexivity].
  f_equal; apply map_eq; intros k; rewrite ?lookup_delete;
    repeat case_decide; reflexivity.
Qed.

(** X9: after [logout] a reload finds nothing: [hydrate] leaves the state
    unauthenticated and the browser as [logout] left it. *)
Theorem logout_hydrate (ws : browser * AuthState) :
  hydrate (logout ws) = logout ws.
Proof.
  destruct (logout_state ws) as [_ [Htok _]].
  rewrite (hydrate_otherwise JSON_parse (logout ws) (or_introl Htok)).
  unfold logout. cbn [fst]. rewrite removeCookies_idemp. reflexivity.
Qed.

(** X10: [hydrate] is idempotent. *)
Theorem hydrate_idempotent (ws : browser * AuthState) :
  hydrate (hydrate ws) = hydrate ws.
Proof.
  destruct (hydrate_cases JSON_parse ws)
    as [(t & c & u & Ht & Hc & Hp & Hne & Hu & H) | [H Hno]].
  - rewrite H. transitivity (hydrate ws); [reflexivity | exact H].
  - rewrite H in Hno |- *. destruct Hno as [Hno _]. cbn [fst] in Hno.
    rewrite (hydrate_otherwise JSON_parse (removeCookies ws.1, cleared)
               (or_introl Hno)).
    cbn [fst]. rewrite removeCookies_idemp. reflexivity.
Qed.

Lemma step_browser_frame (a : action) (ws : browser * AuthState) :
  has_window (step ws a).1 = has_window ws.1
  /\ (has_window ws.1 = false -> (step ws a).1 = ws.1)
  /\ (forall n, n <> "cockpit_auth_token" -> n <> "cockpit_user_info" ->
                 jar (step ws a).1 !! n = jar ws.1 !! n)
  /\ (forall k, k <> "auth_token" -> k <> "user_info" -> k <> "cockpit-auth" ->
                 localStorage (step ws a).1 !! k = localStorage ws.1 !! k).
Proof.
  destruct ws as [w s].
  destruct a as [t u| |u|]; cbn [AuthStore.step fst];
    unfold AuthStore.login, AuthStore.logout, AuthStore.setUser,
      AuthStore.hydrate, removeCookies, setCookieUser, setCookieToken,
      Cookies_set, Cookies_remove, localStorage_removeItem; cbn [fst snd];
    try destruct (truthy_opt _ && truthy_json _);
    destruct (has_window w) eqn:E; cbn; rewrite ?E; cbn; rewrite ?E; cbn;
    repeat split; try reflexivity; try discriminate; intros;
    rewrite ?lookup_insert_ne, ?lookup_delete_ne by congruence; reflexivity.
Qed.

(** X11: what the store leaves alone: over any run of its operations the
    cookies other than the two auth cookies and the [localStorage] keys
    other than the three legacy keys keep their values. *)
Theorem run_browser_frame (acts : list action) (ws : browser * AuthState) :
  (forall n, n <> "cockpit_auth_token" -> n <> "cockpit_user_info" ->
             jar (run ws acts).1 !! n = jar ws.1 !! n)
  /\ (forall k, k <> "auth_token" -> k <> "user_info" -> k <> "cockpit-auth" ->
                 localStorage (run ws acts).1 !! k = localStorage ws.1 !! k).
Proof.
  revert ws. induction acts as [|a acts IH]; intros ws; cbn.
  - split; reflexivity.
  - destruct (IH (step ws a)) as [Hj Hl].
    destruct (step_browser_frame a ws) as (_ & _ & Hj' & Hl').
    split; intros; [rewrite Hj, Hj' | rewrite Hl, Hl']; auto.
Qed.

(** X12: without a window (server-side rendering) no run of the store's
    operations changes the browser side, and [hydrate] always ends
    unauthenticated. *)
Theorem run_without_window (acts : list action) (ws : browser * AuthState) :
  has_window ws.1 = false ->
  (run ws acts).1 = ws.1 /\ (hydrate ws).2 = cleared.
Proof.
  intros Hw. split.
  - revert ws Hw. induction acts as [|a acts IH]; intros ws Hw;
      [reflexivity|].
    change ((run (step ws a) acts).1 = ws.1).
    destruct (step_browser_frame a ws) as (Hw' & Hsame & _).
    rewrite IH by (rewrite Hw'; exact Hw). apply Hsame, Hw.
  - unfold AuthStore.hydrate, getCookieToken. rewrite Hw. reflexivity.
Qed.

End AuthStoreMore.

Lemma login_hydrate_roundtrip_witness :
  AuthStore.hydrate stub_parse
    (AuthStore.login stub_stringify "tok" admin_user
       (empty_browser, AuthStore.initial))
  = AuthStore.login stub_stringify "tok" admin_user
      (empty_browser, AuthStore.initial).
Proof.
  apply (login_hydrate_roundtrip stub_parse stub_stringify "tok" admin_user
           (empty_browser, AuthStore.initial));
    [reflexivity | discriminate | reflexivity | discriminate | reflexivity].
Defined.

Lemma run_without_window_witness :
  (AuthStore.run stub_parse stub_stringify (server_side, AuthStore.initial)
     [AuthStore.Login "tok" admin_user; AuthStore.Hydrate]).1 = server_side
  /\ (AuthStore.hydrate stub_parse (server_side, AuthStore.initial)).2
     = AuthStore.cleared.
Proof.
  apply (run_without_window stub_parse stub_stringify
           [AuthStore.Login "tok" admin_user; AuthStore.Hydrate]
           (server_side, AuthStore.initial)).
  reflexivity.
Defined.

(** ** [apiCall] *)

Section UseApiFacts.
Import UseApi.

Variable JSON_parse : string -> option AuthStore.json.
Variable JSON_stringify : AuthStore.json -> string.
Variable ToString : AuthStore.json -> string.
Variable fetch : string -> Js.RequestInit -> Js.promise Js.Response.

Abbreviation apiCall := (apiCall JSON_parse JSON_stringify ToString fetch).
Abbreviation fetchOptions := (fetchOptions JSON_stringify).

Lemma not_ok_401 (r : Js.Response) : Js.status r = 401%Z -> Js.ok r = false.
Proof. unfold Js.ok. intros ->. reflexivity. Qed.

(** X13: a 401 ends the session: the call is rejected with 'Session
    expired, redirecting to login...', the store is logged out (state
    cleared, both auth cookies removed) and the move to [/login] is armed
    100 ms later. *)
Theorem apiCall_unauthorized (w : world) (endpoint : string)
    (options : ApiOptions) (r : Js.Response) (errorText : string) :
  fetch ("/api/proxy/" ++ endpoint)
    (fetchOptions (AuthStore.token (store w).2) options) = inr r ->
  Js.status r = 401%Z ->
  Js.text r = inr errorText ->
  let out := apiCall w endpoint options in
  out.1 = inl (Js.Error "Session expired, redirecting to login...")
  /\ (store out.2).2 = AuthStore.cleared
  /\ AuthStore.no_auth_cookies (store out.2).1
  /\ timers out.2 = (timers w ++ [(100%Z, "/login")])%list.
Proof.
  intros Hf Hs Ht. cbn zeta. unfold UseApi.apiCall.
  rewrite Hf, (not_ok_401 _ Hs), Ht, Hs. cbn.
  split; [reflexivity|]. split; [reflexivity|].
  split; [apply removeCookies_no_auth_cookies | reflexivity].
Qed.

(** X14: nothing but a 401 touches the session: when the answer is not a
    401, or [fetch] fails, the store and the timers are as before. *)
Theorem apiCall_keeps_session (w : world) (endpoint : string)
    (options : ApiOptions) :
  (forall r, fetch ("/api/proxy/" ++ endpoint)
               (fetchOptions (AuthStore.token (store w).2) options) = inr r ->
             Js.status r <> 401%Z) ->
  (apiCall w endpoint options).2 = w.
Proof.
  intros H. unfold UseApi.apiCall.
  destruct (fetch _ _) as [e|r]; [reflexivity|].
  specialize (H r eq_refl). apply Z.eqb_neq in H.
  destruct (negb (Js.ok r)).
  - destruct (Js.text r) as [e|errorText]; [reflexivity|].
    rewrite H. destruct (Js.status r =? 403)%Z; reflexivity.
  - destruct (Js.response_headers r !! "content-type") as [ct|];
      [|reflexivity].
    destruct (truthy ct && Js.includes "application/json" ct); reflexivity.
Qed.


(** X16: a response that is not [ok] and whose text can be read never
    yields a value: the call is rejected. For a 403 the message is the
    [detail] of the JSON body when that is a non-empty string, and 'Access
    denied' when the body is not JSON. *)
Theorem apiCall_error_response (w : world) (endpoint : string)
    (options : ApiOptions) (r : Js.Response) (errorText : string) :
  fetch ("/api/proxy/" ++ endpoint)
    (fetchOptions (AuthStore.token (store w).2) options) = inr r ->
  Js.ok r = false ->
  Js.text r = inr errorText ->
  (exists message,
      (apiCall w endpoint options).1 = inl (Js.Error message))
  /\ (Js.status r = 403%Z ->
      (JSON_parse errorText = None ->
       (apiCall w endpoint options).1 = inl (Js.Error "Access denied"))
      /\ (forall members d,
            JSON_parse errorText = Some (AuthStore.JObject members) ->
            Js.assoc "detail" members = Some (AuthStore.JString d) ->
            d <> "" ->
            (apiCall w endpoint options).1 = inl (Js.Error d))).
Proof.
  intros Hf Hok Ht. unfold UseApi.apiCall. rewrite Hf, Hok, Ht. cbn [negb].
  split.
  - destruct (Js.status r =? 401)%Z; [eexists; reflexivity|].
    destruct (Js.status r =? 403)%Z; eexists; reflexivity.
  - intros ->. cbn. unfold forbidden_message. split.
    + intros ->. reflexivity.
    + intros members d -> Hd Hne. cbn [Js.member]. rewrite Hd.
      cbn [AuthStore.truthy_json]. apply truthy_true in Hne. rewrite Hne.
      reflexivity.
Qed.

End UseApiFacts.

(** ** The proxy route *)

Section ProxyFacts.
Import Proxy.

Variable NEXT_PUBLIC_BACKEND_URL : option string.
Variable fetch : string -> Js.RequestInit -> Js.promise Js.Response.

Abbreviation handler := (handler NEXT_PUBLIC_BACKEND_URL fetch).
Abbreviation backendUrl := (backendUrl NEXT_PUBLIC_BACKEND_URL).

Lemma forward_header_lookup (request : NextRequest) (name Name : string)
    (h : gmap string string) (n v : string) :
  Js.lower Name = name ->
  forward_header request name Name h !! n = Some v ->
  h !! n = Some v
  \/ (n = name /\ request_headers request !! n = Some v /\ v <> "").
Proof.
  intros HN. unfold forward_header, Headers_set. rewrite HN.
  destruct (request_headers request !! name) as [value|] eqn:E; [|auto].
  destruct (truthy value) eqn:T; [|auto].
  destruct (decide (name = n)) as [<-|Hne].
  - rewrite lookup_insert_eq. intros [= <-]. right.
    split; [reflexivity|]. split; [exact E | apply truthy_true, T].
  - rewrite lookup_insert_ne by exact Hne. auto.
Qed.

(** X17: what reaches the backend. The handlers forward the
    [authorization] header and, except for [DELETE], the [content-type]
    header, each with the value the request had, and no other header;
    without the body flag ([GET], [DELETE]) no body is sent, and an empty
    body is not sent either. *)
Theorem backend_init_forwards (method : string)
    (with_content_type with_body : bool) (request : NextRequest)
    (init : Js.RequestInit) :
  backend_init method with_content_type with_body request = inr init ->
  Js.method init = Some method
  /\ (exists h, Js.headers init = Some h
                /\ forall n v, h !! n = Some v ->
                     (n = "authorization"
                      \/ (with_content_type = true /\ n = "content-type"))
                     /\ request_headers request !! n = Some v /\ v <> "")
  /\ (with_body = false -> Js.body init = None)
  /\ Js.body init <> Some "".
Proof.
  intros H.
  assert (Hh : forall n v,
             forwarded_headers with_content_type request !! n = Some v ->
             (n = "authorization"
              \/ (with_content_type = true /\ n = "content-type"))
             /\ request_headers request !! n = Some v /\ v <> "").
  { intros n v. unfold forwarded_headers. destruct with_content_type.
    - intros [Hv | (-> & Hv)]%forward_header_lookup; [|auto|reflexivity].
      apply forward_header_lookup in Hv as [Hv | (-> & Hv)];
        [|auto|reflexivity].
      rewrite lookup_empty in Hv. discriminate.
    - intros [Hv | (-> & Hv)]%forward_header_lookup; [|auto|reflexivity].
      rewrite lookup_empty in Hv. discriminate. }
  unfold backend_init in H. destruct with_body.
  - destruct (request_text request) as [e|b]; [discriminate|].
    injection H as <-. cbn [Js.method Js.headers Js.body].
    split; [reflexivity|]. split; [eauto|]. split; [discriminate|].
    destruct (truthy b) eqn:T; [|discriminate].
    intros [= ->]. discriminate.
  - injection H as <-. cbn [Js.method Js.headers Js.body].
    split; [reflexivity|]. split; [eauto|]. split; [reflexivity|discriminate].
Qed.

(** X18: a backend answer is passed on as it is: when [fetch] resolves,
    the text can be read and the status allows a body, the handler answers
    with the backend's status and text, and with one header only, the
    backend's content type or [application/json] in its absence. *)
Theorem handler_passes_on (method : string)
    (with_content_type with_body : bool) (request : NextRequest)
    (path : list string) (init : Js.RequestInit) (r : Js.Response)
    (data : string) :
  backend_init method with_content_type with_body request = inr init ->
  fetch (backendUrl request path) init = inr r ->
  Js.text r = inr data ->
  (200 <= Js.status r <= 599)%Z ->
  null_body_status (Js.status r) = false ->
  handler method with_content_type with_body request path = copy_of r data.
Proof.
  intros Hi Hf Ht [Hlo Hhi] Hnull. unfold Proxy.handler, attempt.
  rewrite Hi, Hf, Ht. unfold new_NextResponse. rewrite Hnull.
  replace (Js.status r <? 200)%Z with false by (symmetry; apply Z.ltb_ge; lia).
  replace (599 <? Js.status r)%Z with false by (symmetry; apply Z.ltb_ge; lia).
  reflexivity.
Qed.

(** X19: the handler has two answers only: the copy of the backend's
    answer, or the 500 'Failed to fetch from backend'. *)
Theorem handler_copy_or_failure (method : string)
    (with_content_type with_body : bool) (request : NextRequest)
    (path : list string) :
  handler method with_content_type with_body request path = failure
  \/ exists init r data,
       backend_init method with_content_type with_body request = inr init
       /\ fetch (backendUrl request path) init = inr r
       /\ Js.text r = inr data
       /\ handler method with_content_type with_body request path
          = copy_of r data.
Proof.
  unfold Proxy.handler, attempt.
  destruct (backend_init _ _ _ _) as [e|init] eqn:Hi; [left; reflexivity|].
  destruct (fetch _ _) as [e|r] eqn:Hf; [left; reflexivity|].
  destruct (Js.text r) as [e|data] eqn:Ht; [left; reflexivity|].
  unfold new_NextResponse.
  destruct ((Js.status r <? 200)%Z || (599 <? Js.status r)%Z);
    [left; reflexivity|].
  destruct (null_body_status (Js.status r)); [left; reflexivity|].
  right. exists init, r, data.
  split; [reflexivity|]. split; [exact Hf|]. split; [exact Ht | reflexivity].
Qed.

(** X20: a backend answer that allows no body (204, 205, 304) is not
    passed on: the response cannot be built around the text, and the
    handler answers 500. So does a failure of [fetch]. *)
Theorem handler_failure (method : string)
    (with_content_type with_body : bool) (request : NextRequest)
    (path : list string) (init : Js.RequestInit) :
  backend_init method with_content_type with_body request = inr init ->
  (exists e, fetch (backendUrl request path) init = inl e)
  \/ (exists r, fetch (backendUrl request path) init = inr r
                 /\ Js.status r ∈ [204; 205; 304]%Z) ->
  handler method with_content_type with_body request path = failure.
Proof.
  intros Hi H. unfold Proxy.handler, attempt. rewrite Hi.
  destruct H as [[e ->] | (r & -> & Hs)]; [reflexivity|].
  destruct (Js.text r) as [e|data]; [reflexivity|].
  unfold new_NextResponse.
  destruct ((Js.status r <? 200)%Z || (599 <? Js.status r)%Z);
    [reflexivity|].
  assert (null_body_status (Js.status r) = true) as ->; [|reflexivity].
  unfold null_body_status. apply bool_decide_eq_true.
  apply list_elem_of_In. apply list_elem_of_In in Hs. cbn in Hs |- *. tauto.
Qed.

End ProxyFacts.

(** ** The debug logger *)

Section DebugFacts.
Import Debug.

Variable fetch : string -> Js.RequestInit -> Js.promise Js.Response.
Variable meanwhile : state -> state.

Abbreviation debugFetch := (debugFetch fetch meanwhile).

Lemma guarded_disabled (m : console_method) (args : list arg) (s : state) :
  debugEnabled s = false -> guarded m args s = s.
Proof. intros H. unfold guarded. rewrite H. reflexivity. Qed.

Lemma guarded_enabled (m : console_method) (args : list arg) (s : state) :
  debugEnabled (guarded m args s) = debugEnabled s.
Proof. unfold guarded. destruct (debugEnabled s) eqn:E; cbn; exact E. Qed.

Lemma count_guarded (k m : console_method) (args : list arg) (s : state) :
  count k (guarded m args s)
  = (count k s
     + if debugEnabled s then (if decide (m = k) then 1 else 0) else 0)%nat.
Proof.
  unfold guarded, count. destruct (debugEnabled s); [|lia].
  cbn [emit console]. rewrite filter_app, length_app.
  rewrite filter_cons, filter_nil. cbn [fst].
  destruct (decide (m = k)); reflexivity.
Qed.

Ltac open_logger :=
  unfold Debug.debugFetch, debugFetch_before, debugFetch_after,
    debug_group, debug_time, debug_log, debug_timeEnd, debug_warn,
    debug_error, debug_groupEnd.

Ltac split_branches :=
  repeat match goal with
         | |- context [match ?x with _ => _ end] =>
             lazymatch x with
             | debugEnabled _ => fail
             | decide _ => fail
             | _ => destruct x
             end
         end.

Ltac settle_decides :=
  repeat match goal with
         | |- context [decide (?a = ?b)] =>
             first [ rewrite (decide_True (P := a = b)) by reflexivity
                   | rewrite (decide_False (P := a = b)) by discriminate ]
         end.

Lemma debugFetch_before_disabled (url : string)
    (options : option Js.RequestInit) (s : state) :
  debugEnabled s = false -> debugFetch_before url options s = s.
Proof.
  intros H. open_logger.
  repeat first [ rewrite (guarded_disabled _ _ s H) | split_branches ];
    reflexivity.
Qed.

Lemma debugFetch_after_disabled (url : string)
    (outcome : Js.promise Js.Response) (s : state) :
  debugEnabled s = false -> debugFetch_after url outcome s = (outcome, s).
Proof.
  intros H. open_logger. destruct outcome as [e|r];
    repeat first [ rewrite (guarded_disabled _ _ s H) | split_branches ];
    reflexivity.
Qed.

(** X21: [debugFetch] is [fetch] with logging around it: it resolves or
    rejects exactly as [fetch] does on the same arguments, whatever
    happens to the logger. With debugging off at the call it writes
    nothing before the request, and with debugging still off when the
    request settles it has written nothing at all: the logger is as the
    rest of the program left it. *)
Theorem debugFetch_transparent (url : string)
    (options : option Js.RequestInit) (s : state) :
  (debugFetch url options s).1 = fetch url (default no_options options)
  /\ (debugEnabled s = false -> debugFetch_before url options s = s)
  /\ (debugEnabled s = false -> debugEnabled (meanwhile s) = false ->
      (debugFetch url options s).2 = meanwhile s).
Proof.
  split; [|split].
  - unfold Debug.debugFetch, debugFetch_after.
    destruct (fetch url _); reflexivity.
  - apply debugFetch_before_disabled.
  - intros H H'. unfold Debug.debugFetch.
    rewrite (debugFetch_before_disabled _ _ _ H).
    rewrite (debugFetch_after_disabled _ _ _ H'). reflexivity.
Qed.

(** X22: what [debugFetch] opens and closes. Before the request it makes
    one [console.group] and one [console.time] call exactly when debugging
    is on at the call, and no closing call; after the request, resolved or
    rejected, it makes one [console.groupEnd] and one [console.timeEnd]
    call exactly when debugging is on at that moment, and no opening call.
    So it closes what it opened whenever the flag is the same at both
    moments. *)
Theorem debugFetch_balanced (url : string)
    (options : option Js.RequestInit) (s : state) :
  let before := debugFetch_before url options s in
  let resumed := meanwhile before in
  let after := (debugFetch url options s).2 in
  let on (x : state) := if debugEnabled x then 1%nat else 0%nat in
  (count group before = (count group s + on s)%nat
   /\ count time before = (count time s + on s)%nat
   /\ count groupEnd before = count groupEnd s
   /\ count timeEnd before = count timeEnd s)
  /\ (count group after = count group resumed
      /\ count time after = count time resumed
      /\ count groupEnd after = (count groupEnd resumed + on resumed)%nat
      /\ count timeEnd after = (count timeEnd resumed + on resumed)%nat).
Proof.
  cbn zeta. split.
  - open_logger. split_branches;
      rewrite ?count_guarded, ?guarded_enabled; settle_decides;
      destruct (debugEnabled s); repeat split; lia.
  - unfold Debug.debugFetch.
    generalize (meanwhile (debugFetch_before url options s)). intros b.
    open_logger. destruct (fetch url _) as [e|r]; cbn [snd];
      split_branches;
      rewrite ?count_guarded, ?guarded_enabled; settle_decides;
      destruct (debugEnabled b); repeat split; lia.
Qed.

End DebugFacts.

(** ** User management: the selection *)

Section UserManagementFacts.
Import UserManagement.
Local Open Scope list_scope.

Lemma Set_has_true (x : Z) (s : list Z) : Set_has x s = true <-> x ∈ s.
Proof. unfold Set_has. apply bool_decide_eq_true. Qed.

Lemma Set_has_false (x : Z) (s : list Z) : Set_has x s = false <-> x ∉ s.
Proof. unfold Set_has. apply bool_decide_eq_false. Qed.

Lemma Set_has_ext (x : Z) (s1 s2 : list Z) :
  (x ∈ s1 <-> x ∈ s2) -> Set_has x s1 = Set_has x s2.
Proof. intros H. unfold Set_has. apply bool_decide_ext, H. Qed.

Lemma elem_of_Set_add (x y : Z) (s : list Z) :
  y ∈ Set_add x s <-> y = x \/ y ∈ s.
Proof.
  unfold Set_add. destruct (Set_has x s) eqn:E.
  - apply Set_has_true in E. split; [auto | intros [-> | H]; assumption].
  - rewrite elem_of_app, list_elem_of_singleton. tauto.
Qed.

Lemma NoDup_Set_add (x : Z) (s : list Z) : NoDup s -> NoDup (Set_add x s).
Proof.
  intros H. unfold Set_add. destruct (Set_has x s) eqn:E; [exact H|].
  apply Set_has_false in E. apply NoDup_app. split; [exact H|].
  split; [|apply NoDup_singleton].
  intros y Hy ->%list_elem_of_singleton. contradiction.
Qed.

Lemma elem_of_Set_delete (x y : Z) (s : list Z) :
  y ∈ Set_delete x s <-> y <> x /\ y ∈ s.
Proof. unfold Set_delete. rewrite list_elem_of_filter. reflexivity. Qed.

Lemma Set_of_fold (xs acc : list Z) :
  let s := fold_left (fun s x => Set_add x s) xs acc in
  (NoDup acc -> NoDup s)
  /\ (forall y, y ∈ s <-> y ∈ acc \/ y ∈ xs)
  /\ (NoDup (acc ++ xs) -> s = acc ++ xs).
Proof.
  revert acc. induction xs as [|x xs IH]; intros acc; cbn.
  - split; [auto|]. split; [|intros _; symmetry; apply app_nil_r].
    intros y. rewrite elem_of_nil. tauto.
  - destruct (IH (Set_add x acc)) as (Hnd & Hin & Heq). cbn zeta in *.
    split; [|split].
    + intros H. apply Hnd, NoDup_Set_add, H.
    + intros y. rewrite Hin, elem_of_Set_add, elem_of_cons. tauto.
    + intros H.
      assert (Hx : Set_add x acc = acc ++ [x]).
      { unfold Set_add. destruct (Set_has x acc) eqn:E; [|reflexivity].
        apply Set_has_true in E. apply NoDup_app in H as (_ & H & _).
        exfalso. apply (H x E). left. }
      rewrite Hx in Heq |- *. rewrite <- app_assoc in Heq.
      cbn [app] in Heq. exact (Heq H).
Qed.

(** X23: ticking or unticking a row changes that row only: afterwards the
    user is selected exactly when the box is ticked, every other user is
    selected as before, and the selection still holds each identifier
    once. *)
Theorem handleSelectUser_spec (userId : Z) (checked : bool) (prev : list Z) :
  Set_has userId (handleSelectUser userId checked prev) = checked
  /\ (forall y, y <> userId ->
                Set_has y (handleSelectUser userId checked prev)
                = Set_has y prev)
  /\ (NoDup prev -> NoDup (handleSelectUser userId checked prev)).
Proof.
  unfold handleSelectUser. destruct checked; split; [|split| |split].
  - apply Set_has_true, elem_of_Set_add. left. reflexivity.
  - intros y Hy. apply Set_has_ext. rewrite elem_of_Set_add. tauto.
  - apply NoDup_Set_add.
  - apply Set_has_false. rewrite elem_of_Set_delete. tauto.
  - intros y Hy. apply Set_has_ext. rewrite elem_of_Set_delete. tauto.
  - intros H. unfold Set_delete. apply NoDup_filter, H.
Qed.

(** X24: 'select all' ticks every row and nothing else, and the header
    box then shows ticked exactly when there is a user, the identifiers
    being distinct; 'select none' unticks every row and the header. *)
Theorem handleSelectAll_spec (users : list User) :
  (forall u, u ∈ users -> row_checked (handleSelectAll true users) u = true)
  /\ (forall x, x ∈ handleSelectAll true users -> x ∈ id <$> users)
  /\ NoDup (handleSelectAll true users)
  /\ (NoDup (id <$> users) ->
      handleSelectAll true users = id <$> users
      /\ all_checked (handleSelectAll true users) users
         = bool_decide (users <> []))
  /\ (forall u, row_checked (handleSelectAll false users) u = false)
  /\ all_checked (handleSelectAll false users) users = false.
Proof.
  unfold handleSelectAll, Set_of, row_checked.
  destruct (Set_of_fold (id <$> users) []) as (Hnd & Hin & Heq).
  cbn zeta in *. split; [|split; [|split; [|split; [|split]]]].
  - intros u Hu. apply Set_has_true, Hin. right.
    apply list_elem_of_fmap. eauto.
  - intros x [Hx | Hx]%Hin; [|exact Hx]. apply elem_of_nil in Hx as [].
  - apply Hnd, NoDup_nil_2.
  - intros H. rewrite (Heq H). split; [reflexivity|].
    unfold all_checked. cbn [app]. rewrite length_fmap, Nat.eqb_refl.
    destruct users; reflexivity.
  - intros u. apply Set_has_false, not_elem_of_nil.
  - unfold all_checked. cbn [length]. destruct users; reflexivity.
Qed.

(** X25: what the header box means. When the selection holds each
    identifier once and only identifiers of listed users, which have
    distinct identifiers, the header box is ticked exactly when there is a
    user and every row is ticked. *)
Theorem all_checked_meaning (selectedUsers : list Z) (users : list User) :
  NoDup selectedUsers ->
  NoDup (id <$> users) ->
  (forall x, x ∈ selectedUsers -> x ∈ id <$> users) ->
  all_checked selectedUsers users = true <->
  users <> [] /\ forall u, u ∈ users -> row_checked selectedUsers u = true.
Proof.
  intros Hsel Hids Hsub. unfold all_checked, row_checked.
  rewrite andb_true_iff, Nat.eqb_eq, Nat.ltb_lt.
  pose proof (NoDup_submseteq _ _ Hsel Hsub) as Hsm.
  split.
  - intros [Hlen Hpos]. split; [intros ->; cbn in Hpos; lia|].
    intros u Hu. apply Set_has_true.
    assert (Hperm : selectedUsers ≡ₚ id <$> users).
    { apply submseteq_length_Permutation; [exact Hsm|].
      rewrite length_fmap. lia. }
    rewrite Hperm. apply list_elem_of_fmap. eauto.
  - intros [Hne Hall]. split; [|destruct users; [congruence | cbn; lia]].
    assert (Hsm' : id <$> users ⊆+ selectedUsers).
    { apply NoDup_submseteq; [exact Hids|].
      intros x (u & -> & Hu)%list_elem_of_fmap.
      apply Set_has_true, Hall, Hu. }
    apply submseteq_length in Hsm, Hsm'. rewrite length_fmap in Hsm, Hsm'.
    lia.
Qed.

(** X26: the request [saveUser] makes. It is made only with a username
    and a real name filled in; a new user goes by [POST] to [rbac/users]
    and always with a non-empty password; an edit goes by [PUT] to
    [rbac/users/] followed by the identifier as the template literal
    prints it, and leaves the password out when the field is empty. *)
Theorem saveUser_request_spec (Number_toString : Z -> string)
    (formData : UserFormData)
    (editingUser : option User) (endpoint : string)
    (m : UseApi.http_method) (p : payload) :
  saveUser_request Number_toString formData editingUser
  = Some (endpoint, m, p) ->
  form_username formData <> ""
  /\ form_realname formData <> ""
  /\ p = payload_of formData
  /\ payload_password p <> Some ""
  /\ match editingUser with
     | None => endpoint = "rbac/users" /\ m = UseApi.POST
               /\ payload_password p = Some (form_password formData)
     | Some u => endpoint
                 = ("rbac/users/" ++ Number_toString (id u))%string
                 /\ m = UseApi.PUT
                 /\ (form_password formData = "" -> payload_password p = None)
     end.
Proof.
  unfold saveUser_request.
  destruct (truthy (form_username formData)) eqn:Hu; [|discriminate].
  destruct (truthy (form_realname formData)) eqn:Hr; [|discriminate].
  cbn [negb orb].
  assert (Hpw : payload_password (payload_of formData) <> Some "").
  { cbn. unfold or_undefined.
    destruct (truthy (form_password formData)) eqn:T; [|discriminate].
    intros [= E]. rewrite E in T. discriminate. }
  destruct editingUser as [u|]; cbn.
  - intros [= <- <- <-]. repeat split; try (apply truthy_true; assumption).
    + exact Hpw.
    + intros E. cbn. rewrite E. reflexivity.
  - destruct (truthy (form_password formData)) eqn:T; [|discriminate].
    intros [= <- <- <-]. repeat split; try (apply truthy_true; assumption).
    + exact Hpw.
    + cbn. unfold or_undefined. rewrite T. reflexivity.
Qed.

End UserManagementFacts.

(** ** Profile page: the password change *)

Section ProfileFacts.
Import Profile.
Local Open Scope list_scope.

Context {code_unit : Type} `{EqDecision code_unit}.

Lemma filled_false (s : list code_unit) : filled s = false <-> s = [].
Proof. destruct s; cbn; split; congruence. Qed.

(** X27: [validatePasswords] accepts exactly two situations: both fields
    empty, or both equal and at least four code units long; it then clears
    the error message, and on a refusal it sets one of its two messages. *)
Theorem validatePasswords_spec (p : @passwords code_unit) :
  ((validatePasswords p).1 = true <->
   (newPassword p = [] /\ confirmPassword p = [])
   \/ (newPassword p = confirmPassword p /\ 4 <= length (newPassword p)))
  /\ ((validatePasswords p).1 = true -> (validatePasswords p).2 = ""%string)
  /\ ((validatePasswords p).1 = false ->
      (newPassword p <> confirmPassword p
       /\ (validatePasswords p).2 = "Passwords do not match"%string)
      \/ (newPassword p = confirmPassword p
          /\ 0 < length (newPassword p) < 4
          /\ (validatePasswords p).2
             = "Password must be at least 4 characters long"%string)).
Proof.
  unfold validatePasswords.
  destruct (filled (newPassword p) || filled (confirmPassword p)) eqn:F.
  - destruct (bool_decide (newPassword p = confirmPassword p)) eqn:E;
      cbn [negb].
    + apply bool_decide_eq_true in E.
      destruct (length (newPassword p) <? 4)%nat eqn:L; cbn [fst snd].
      * apply Nat.ltb_lt in L. split; [|split; [discriminate|]].
        -- split; [discriminate|].
           intros [[Hn Hc] | [_ Hl]]; [|lia].
           rewrite Hn, Hc in F. discriminate.
        -- intros _. right. split; [exact E|]. split; [|reflexivity].
           split; [|exact L]. rewrite <- E, orb_diag in F.
           destruct (newPassword p); [discriminate | cbn; lia].
      * apply Nat.ltb_ge in L.
        split; [split; [auto | reflexivity]|].
        split; [reflexivity | discriminate].
    + apply bool_decide_eq_false in E. cbn [fst snd].
      split; [|split; [discriminate|]].
      * split; [discriminate|].
        intros [[Hn Hc] | [He _]]; [congruence | contradiction].
      * intros _. left. split; [exact E | reflexivity].
  - apply orb_false_iff in F as [Fn Fc].
    apply filled_false in Fn, Fc. cbn [fst snd].
    split; [split; [auto | reflexivity]|].
    split; [reflexivity | discriminate].
Qed.

End ProfileFacts.

(** ** Instances *)

Lemma apiCall_unauthorized_witness :
  (UseApi.apiCall stub_parse stub_stringify render
     (always (answer 401 None "expired")) signed_in "rbac/users" plain_call).1
  = inl (Js.Error "Session expired, redirecting to login...")
  /\ AuthStore.no_auth_cookies
       (UseApi.store
          (UseApi.apiCall stub_parse stub_stringify render
             (always (answer 401 None "expired")) signed_in "rbac/users"
             plain_call).2).1.
Proof.
  destruct (apiCall_unauthorized stub_parse stub_stringify render
              (always (answer 401 None "expired")) signed_in "rbac/users"
              plain_call (answer 401 None "expired") "expired"
              eq_refl eq_refl eq_refl) as (H1 & _ & H3 & _).
  split; [exact H1 | exact H3].
Defined.

Lemma apiCall_keeps_session_witness :
  (UseApi.apiCall parse_forbidden stub_stringify render
     (always (answer 403 None forbidden_text)) signed_in "rbac/users"
     plain_call).2 = signed_in.
Proof.
  apply (apiCall_keeps_session parse_forbidden stub_stringify render
           (always (answer 403 None forbidden_text)) signed_in "rbac/users"
           plain_call).
  intros r [= <-]. discriminate.
Defined.

Lemma apiCall_error_response_witness :
  (UseApi.apiCall parse_forbidden stub_stringify render
     (always (answer 403 None forbidden_text)) signed_in "rbac/users"
     plain_call).1 = inl (Js.Error "Admin access required").
Proof.
  destruct (apiCall_error_response parse_forbidden stub_stringify render
              (always (answer 403 None forbidden_text)) signed_in "rbac/users"
              plain_call (answer 403 None forbidden_text) forbidden_text
              eq_refl eq_refl eq_refl) as [_ H].
  destruct (H eq_refl) as [_ Hd].
  apply (Hd [("detail", AuthStore.JString "Admin access required")]
            "Admin access required"); [reflexivity | reflexivity | discriminate].
Defined.

Lemma backend_init_forwards_witness :
  Proxy.backend_init "POST" true true incoming = inr forwarded
  /\ Js.body forwarded <> Some "".
Proof.
  split; [reflexivity|].
  apply (backend_init_forwards "POST" true true incoming forwarded).
  reflexivity.
Defined.

Lemma handler_passes_on_witness :
  Proxy.POST None (always (answer 404 None "no such user")) incoming
    ["rbac"; "users"; "7"]
  = Proxy.copy_of (answer 404 None "no such user") "no such user".
Proof.
  apply (handler_passes_on None (always (answer 404 None "no such user"))
           "POST" true true incoming ["rbac"; "users"; "7"] forwarded
           (answer 404 None "no such user") "no such user");
    [reflexivity | reflexivity | reflexivity | cbn; lia | reflexivity].
Defined.

Lemma handler_failure_witness :
  Proxy.POST None (always (answer 204 None "")) incoming ["rbac"; "users"]
  = Proxy.failure.
Proof.
  apply (handler_failure None (always (answer 204 None "")) "POST" true true
           incoming ["rbac"; "users"] forwarded); [reflexivity|].
  right. exists (answer 204 None ""). split; [reflexivity|].
  apply list_elem_of_In. cbn. tauto.
Defined.

Lemma all_checked_meaning_witness :
  UserManagement.all_checked [2; 1]%Z [listed 1 "ann"; listed 2 "bob"] = true
  <-> [listed 1 "ann"; listed 2 "bob"] <> []
      /\ forall u, u ∈ [listed 1 "ann"; listed 2 "bob"] ->
                   UserManagement.row_checked [2; 1]%Z u = true.
Proof.
  apply (all_checked_meaning [2; 1]%Z [listed 1 "ann"; listed 2 "bob"]).
  - compute_done.
  - compute_done.
  - intros x Hx. apply list_elem_of_In. apply list_elem_of_In in Hx.
    cbn in Hx |- *. tauto.
Defined.

Lemma saveUser_request_spec_witness :
  UserManagement.saveUser_request small_number edit_form
    (Some (listed 7 "ann"))
  = Some ("rbac/users/7", UseApi.PUT, UserManagement.payload_of edit_form)
  /\ UserManagement.payload_password (UserManagement.payload_of edit_form)
     = None.
Proof.
  split; [vm_compute; reflexivity|].
  destruct (saveUser_request_spec small_number edit_form
              (Some (listed 7 "ann"))
              "rbac/users/7" UseApi.PUT (UserManagement.payload_of edit_form))
    as (_ & _ & _ & _ & _ & _ & H); [vm_compute; reflexivity|].
  apply H. reflexivity.
Defined.
